(** * Nimbus: a shallow embedding of the HTTP form file store

    The development follows [nimbus.go] and [zipper.go] of
    navaz-alani/nimbus: the extension policy ([isExtAllowed]), the chunked
    copy helper ([write]), the path resolution ([tmpFilePath]) and the
    handlers [Upload], [Download], [DownloadMany] and [Delete] of
    [NimbusHTTPFormImpl].

    Conventions.
    - Go strings are [string]; byte slices are [list byte].
    - A Go [error] value is [option error] with [None] for [nil].
    - The handlers run one at a time: the read/write mutex [mu] only
      brackets the accesses to [mimeCache] and is not represented.
    - The file system is a finite map from the path strings handed to the
      [os] calls to nodes (regular files and directories).  Two spellings of
      one path are distinct keys; the store itself only ever builds paths of
      the shape [tmpDir/base]. *)

From Stdlib Require Import ZArith Ascii String Strings.Byte List Bool Lia.
From stdpp Require Import base option list gmap strings.

Import ListNotations.
Abbreviation byte := Byte.byte.
Local Open Scope Z_scope.

(** ** Go values *)

(** [error]: [io.EOF] and errors that only carry their message
    ([fmt.Errorf], [*os.PathError], failures of a reader or a writer). *)
Inductive error : Type :=
  | EOF
  | errorString (msg : string).

Definition Error (e : error) : string :=
  match e with
  | EOF => "EOF"
  | errorString msg => msg
  end.

Definition fmt_Errorf (msg : string) : error := errorString msg.

(** [*os.PathError]: [op path: reason]. *)
Definition PathError (op path reason : string) : error :=
  errorString (op +:+ " " +:+ path +:+ ": " +:+ reason).

Definition ENOENT : string := "no such file or directory".
Definition EISDIR : string := "is a directory".
Definition EEXIST : string := "file exists".
Definition ENOTEMPTY : string := "directory not empty".
Definition ENOTDIR : string := "not a directory".
Definition EINVAL : string := "invalid argument".

#[global] Instance error_eq_dec : EqDecision error.
Proof. solve_decision. Defined.

(** ** Paths: [path.Base] and [filepath.Ext] *)

Module Path.

Definition is_slash (c : ascii) : bool := Ascii.eqb c "/"%char.
Definition is_dot (c : ascii) : bool := Ascii.eqb c "."%char.

(** Both library functions walk the string from its last byte to the
    front; the helpers work on the reversed byte list. *)

(** [for len(path) > 0 && path[len(path)-1] == '/' { path = path[:len(path)-1] }] *)
Fixpoint strip_slashes (r : list ascii) : list ascii :=
  match r with
  | c :: r' => if is_slash c then strip_slashes r' else r
  | [] => []
  end.

(** [path[LastIndexByte(path, '/')+1:]], reversed. *)
Fixpoint last_element (r : list ascii) : list ascii :=
  match r with
  | c :: r' => if is_slash c then [] else c :: last_element r'
  | [] => []
  end.

(** [path.Base]. *)
Definition Base (p : string) : string :=
  if String.eqb p EmptyString then "."
  else
    match last_element (strip_slashes (rev (list_ascii_of_string p))) with
    | [] => "/"
    | e => string_of_list_ascii (rev e)
    end.

(** [filepath.Ext]:
    [for i := len(path)-1; i >= 0 && !IsPathSeparator(path[i]); i--
       { if path[i] == '.' { return path[i:] } }], else the empty string. *)
Fixpoint ext_scan (r acc : list ascii) : list ascii :=
  match r with
  | c :: r' =>
      if is_slash c then []
      else if is_dot c then c :: acc
      else ext_scan r' (c :: acc)
  | [] => []
  end.

Definition Ext (p : string) : string :=
  string_of_list_ascii (ext_scan (rev (list_ascii_of_string p)) []).

(** A name without a separator in it. *)
Definition slash_free (s : string) : Prop :=
  Forall (fun c => is_slash c = false) (list_ascii_of_string s).

(** A string with a byte that is not a separator. *)
Definition has_name (s : string) : Prop :=
  Exists (fun c => is_slash c = false) (list_ascii_of_string s).

End Path.

(** ** The store *)

(** [ExtAll], [ExtImg], [ExtComp], [ExtTxt]. *)
Definition ExtAll : list string := ["_all_"].
Definition ExtImg : list string :=
  [".apng"; ".avif"; ".gif"; ".jpg"; ".jpeg"; ".jfif";
   ".pjpeg"; ".pjp"; ".png"; ".svg"; ".webp"; ".bmp"].
Definition ExtComp : list string := [".zip"; ".tar"; ".tgz"; ".gz"; ".bz2"].
Definition ExtTxt : list string := [".txt"].

Definition DefaultTransferBuffSize : Z := 256.
Definition Mb10 : Z := Z.shiftl 10 20.

(** [NimbusHTTPFormImpl]; [mimeCache] is the only field that changes after
    construction. *)
Record NimbusHTTPFormImpl : Type := mkNimbus {
  maxSize : Z;
  tBuffSize : Z;
  dfk : string;
  mimeCache : gmap string (list string);
  tmpDir : string;
  allowedExtensions : list string;
  allowNoExt : bool
}.

Definition set_mimeCache (n : NimbusHTTPFormImpl) (c : gmap string (list string))
  : NimbusHTTPFormImpl :=
  {| maxSize := maxSize n; tBuffSize := tBuffSize n; dfk := dfk n;
     mimeCache := c; tmpDir := tmpDir n;
     allowedExtensions := allowedExtensions n; allowNoExt := allowNoExt n |}.

(** [fmt.Sprintf("%s/%s", n.tmpDir, path.Base(name))]. *)
Definition tmpFilePath (n : NimbusHTTPFormImpl) (name : string) : string :=
  tmpDir n +:+ "/" +:+ Path.Base name.

(** *** Extension policy *)

Definition errNoExt : error := fmt_Errorf "no-extension files not permitted".
Definition errExtNotPermitted : error := fmt_Errorf "file extension not permitted".

(** [for _, e := range exts { if ext == e { allowed = true; break } }] *)
Fixpoint ext_range (ext : string) (exts : list string) (allowed : bool) : bool :=
  match exts with
  | e :: exts' => if String.eqb ext e then true else ext_range ext exts' allowed
  | [] => allowed
  end.

Definition isExtAllowed (n : NimbusHTTPFormImpl) (ext : string) : option error :=
  if String.eqb ext EmptyString && negb (allowNoExt n) then Some errNoExt
  else
    (* the index [0] is only evaluated when the length is 1 *)
    if (length (allowedExtensions n) =? 1)%nat
       && String.eqb (hd EmptyString (allowedExtensions n)) "_all_"
    then None
    else
      let allowed := ext_range ext (allowedExtensions n) false in
      if negb allowed then Some errExtNotPermitted else None.

(** The three ordered rules of the extension policy as the specification
    words them, to be compared with [isExtAllowed]. *)
Inductive rejection : Type := NoExtension | ExtensionNotPermitted.

Inductive verdict : Type := Accept | Rejected (why : rejection).

Definition IsAllowed_rules (allowAll : list string) (allowList : list string)
    (extLess : bool) (extension : string) : verdict :=
  if decide (extension = EmptyString ∧ extLess = false) then Rejected NoExtension
  else if decide (allowList = allowAll) then Accept
  else if decide (extension ∈ allowList) then Accept
  else Rejected ExtensionNotPermitted.

(** How the code signals a verdict. *)
Definition verdict_error (v : verdict) : option error :=
  match v with
  | Accept => None
  | Rejected NoExtension => Some errNoExt
  | Rejected ExtensionNotPermitted => Some errExtNotPermitted
  end.

(** ** Running a handler *)

(** A handler either returns, panics, or is still looping when the fuel of
    the model runs out. *)
Inductive run (A : Type) : Type :=
  | Done (a : A)
  | Panic (msg : string)
  | OutOfFuel.

Arguments Done {A} a.
Arguments Panic {A} msg.
Arguments OutOfFuel {A}.

#[global] Instance run_bind : MBind run := fun A B k m =>
  match m with
  | Done a => k a
  | Panic msg => Panic msg
  | OutOfFuel => OutOfFuel
  end.

#[global] Instance run_ret : MRet run := fun A a => Done a.

(** ** Streams: [io.Reader] and [io.Writer] *)

(** [Read(p)] with [len(p) = len]: the bytes read (their number is the [n]
    of the Go call), the error, and the reader afterwards. *)
Class Reader (R : Type) : Type :=
  io_Read : R → nat → (list byte * option error) * R.

(** [Write(p)]: the error and the writer afterwards. *)
Class Writer (W : Type) : Type :=
  io_Write : W → list byte → option error * W.

(** What a read leaves in the buffer: the bytes read at the front, the old
    contents behind them. *)
Definition fill (buff data : list byte) : list byte :=
  take (length buff) (data ++ drop (length data) buff).

(** *** The chunked copy helper *)

Fixpoint write_loop {R W : Type} `{Reader R} `{Writer W}
    (fuel : nat) (f : R) (w : W) (buff : list byte) : run (option error * R * W) :=
  match fuel with
  | O => OutOfFuel
  | S fuel' =>
      let '((data, err), f') := io_Read f (length buff) in
      let n := length data in
      let buff' := fill buff data in
      if decide (err = Some EOF ∧ n = 0%nat) then Done (None, f', w)
      else
        match err with
        | Some e => Done (Some e, f', w)
        | None =>
            (* [w.Write(buff)]: the whole buffer, the result is dropped *)
            let '(_, w') := io_Write w buff' in
            write_loop fuel' f' w' buff'
        end
  end.

Definition write {R W : Type} `{Reader R} `{Writer W}
    (fuel : nat) (f : R) (w : W) (buffSize : Z) : run (option error * R * W) :=
  if buffSize <? 0 then Panic "runtime error: makeslice: len out of range"
  else write_loop fuel f w (replicate (Z.to_nat buffSize) Byte.x00).

(** The writes of a copy, one after the other, their results dropped. *)
Fixpoint write_all {W : Type} `{Writer W} (w : W) (cs : list (list byte)) : W :=
  match cs with
  | [] => w
  | c :: cs' => write_all (snd (io_Write w c)) cs'
  end.

(** The buffers a copy hands to the writer when every read fills the buffer
    as far as the rest of the payload goes: each chunk is laid over the
    buffer the previous read left. *)
Fixpoint padded_chunks (fuel : nat) (buff rest : list byte) : list (list byte) :=
  match fuel, rest with
  | S fuel', _ :: _ =>
      let buff' := fill buff (take (length buff) rest) in
      buff' :: padded_chunks fuel' buff' (drop (length buff) rest)
  | _, _ => []
  end.

(** What a copy with a buffer of [B] bytes writes for a payload. *)
Definition stored (B : nat) (payload : list byte) : list byte :=
  concat (padded_chunks (length payload) (replicate B Byte.x00) payload).

(** *** Readers and writers that misbehave *)

(** A reader that replays a script of read results, then reports the end
    of the stream. *)
Record scriptReader : Type := mkScript {
  script : list (list byte * option error)
}.

#[global] Instance scriptReader_Reader : Reader scriptReader := fun s len =>
  match script s with
  | [] => (([], Some EOF), s)
  | res :: rest => ((take len (fst res), snd res), {| script := rest |})
  end.

(** A writer every [Write] of which fails (a closed connection, a full
    disk); it counts the calls. *)
Record brokenWriter : Type := mkBroken {
  bw_calls : nat
}.

Definition EPIPE : error := errorString "write: broken pipe".

#[global] Instance brokenWriter_Writer : Writer brokenWriter := fun w p =>
  (Some EPIPE, {| bw_calls := S (bw_calls w) |}).

(** ** The file system *)

Inductive node : Type :=
  | File (data : list byte)
  | Dir.

Abbreviation FS := (gmap string node).

(** An [*os.File] opened for reading. *)
Record osFile : Type := mkOsFile {
  f_name : string;
  f_node : node;
  f_off : nat
}.

(** A read into an empty buffer returns at once; at the end of a regular
    file a read returns [0, io.EOF]; a directory cannot be read. *)
#[global] Instance osFile_Reader : Reader osFile := fun f len =>
  if (len =? 0)%nat then (([], None), f)
  else
    match f_node f with
    | Dir => (([], Some (PathError "read" (f_name f) EISDIR)), f)
    | File data =>
        match take len (drop (f_off f) data) with
        | [] => (([], Some EOF), f)
        | chunk =>
            ((chunk, None),
             {| f_name := f_name f; f_node := f_node f;
                f_off := (f_off f + length chunk)%nat |})
        end
    end.

(** What the directory part of a path is on the disk: a directory, a
    regular file, or missing.  The path is walked from its end (on the
    reversed path): the directory part is what stands before the last
    separator; when it is not on the disk, a regular file further up makes
    it a path through a file, and it is missing otherwise.  A path without
    a separator lies in the working directory, and the root exists. *)
Inductive parent_kind : Type := ParentIsDir | ParentIsFile | ParentMissing.

Fixpoint kind_above (fs : FS) (r : list ascii) : parent_kind :=
  match r with
  | [] => ParentIsDir
  | c :: r' =>
      if Path.is_slash c then
        match r' with
        | [] => ParentIsDir
        | _ :: _ =>
            match fs !! string_of_list_ascii (rev r') with
            | Some Dir => ParentIsDir
            | Some (File _) => ParentIsFile
            | None =>
                match kind_above fs r' with
                | ParentIsFile => ParentIsFile
                | _ => ParentMissing
                end
            end
        end
      else kind_above fs r'
  end.

Definition parent_of (fs : FS) (name : string) : parent_kind :=
  kind_above fs (rev (list_ascii_of_string name)).

(** [os.Open] and [os.OpenFile(name, O_RDONLY, _)].  A path that is not on
    the disk cannot be opened: [ENOTDIR] when its directory part is a
    regular file, [ENOENT] otherwise.  The entries [.] and [..] of a
    directory are not on the model's disk; the statements about opening
    leave them out. *)
Definition os_Open (fs : FS) (name : string) : error + osFile :=
  match fs !! name with
  | None =>
      inl (PathError "open" name
             match parent_of fs name with
             | ParentIsFile => ENOTDIR
             | _ => ENOENT
             end)
  | Some nd => inr {| f_name := name; f_node := nd; f_off := 0 |}
  end.

(** The multipart file held in memory: an [io.SectionReader] over the
    bytes of the part. *)
Record sectionReader : Type := mkSection {
  s_data : list byte;
  s_off : nat
}.

#[global] Instance sectionReader_Reader : Reader sectionReader := fun s len =>
  if (length (s_data s) <=? s_off s)%nat then (([], Some EOF), s)
  else
    let chunk := take len (drop (s_off s) (s_data s)) in
    ((chunk, None), {| s_data := s_data s; s_off := (s_off s + length chunk)%nat |}).

(** An [*os.File] open for writing at the end of the file: the handle is
    the file system together with the name. *)
Record osFileW : Type := mkOsFileW {
  w_fs : FS;
  w_name : string
}.

#[global] Instance osFileW_Writer : Writer osFileW := fun w p =>
  match w_fs w !! w_name w with
  | Some (File data) =>
      (None, {| w_fs := <[w_name w := File (data ++ p)]> (w_fs w); w_name := w_name w |})
  | _ => (Some (PathError "write" (w_name w) "bad file descriptor"), w)
  end.

(** [os.Mkdir]: it creates the directory when the name is free and its
    directory part is a directory; the errors of the other cases are what
    the constructor drops. *)
Definition os_Mkdir (fs : FS) (name : string) : FS :=
  match fs !! name with
  | None =>
      match parent_of fs name with
      | ParentIsDir => <[name := Dir]> fs
      | _ => fs
      end
  | Some _ => fs
  end.

Definition dir_empty (fs : FS) (name : string) : bool :=
  forallb (fun q => negb (String.prefix (name +:+ "/") q)) (map fst (map_to_list fs)).

(** Why a path that is not on the disk cannot be removed: [ENOTDIR] when
    its directory part is a regular file, [ENOENT] when that part is
    missing; in an existing directory the entry [.] gives [EINVAL], the
    entry [..] gives [ENOTEMPTY], and any other name [ENOENT]. *)
Definition remove_reason (fs : FS) (name : string) : string :=
  match parent_of fs name with
  | ParentIsFile => ENOTDIR
  | ParentMissing => ENOENT
  | ParentIsDir =>
      if String.eqb (Path.Base name) "." then EINVAL
      else if String.eqb (Path.Base name) ".." then ENOTEMPTY
      else ENOENT
  end.

(** [os.Remove]. *)
Definition os_Remove (fs : FS) (name : string) : error + FS :=
  match fs !! name with
  | None => inl (PathError "remove" name (remove_reason fs name))
  | Some (File _) => inr (delete name fs)
  | Some Dir =>
      if dir_empty fs name then inr (delete name fs)
      else inl (PathError "remove" name ENOTEMPTY)
  end.

(** A directory name in clean form: path elements that are proper names
    (not empty, not [.], not [..]), separated by single separators, with at
    most one separator in front.  For such a directory [filepath.Join(dir,
    name)] is [dir/name]. *)
Fixpoint path_elements (cs cur : list ascii) : list (list ascii) :=
  match cs with
  | c :: cs' =>
      if Path.is_slash c then rev cur :: path_elements cs' []
      else path_elements cs' (c :: cur)
  | [] => [rev cur]
  end.

Definition proper_element (e : list ascii) : bool :=
  match e with
  | [] => false
  | [c] => negb (Path.is_dot c)
  | [c1; c2] => negb (Path.is_dot c1 && Path.is_dot c2)
  | _ => true
  end.

Definition clean_dir (dir : string) : bool :=
  match path_elements (list_ascii_of_string dir) [] with
  | [] :: e :: es => forallb proper_element (e :: es)
  | es => forallb proper_element es
  end.

(** [endsWithDot] of [os.RemoveAll]: the path is [.] or ends in [/.]. *)
Definition endsWithDot (path : string) : bool :=
  match rev (list_ascii_of_string path) with
  | [c] => Path.is_dot c
  | c :: c' :: _ => Path.is_dot c && Path.is_slash c'
  | [] => false
  end.

(** *** [ioutil.TempFile] *)

Definition is_star (c : ascii) : bool := Ascii.eqb c "*"%char.

(** [strings.LastIndex(pattern, "*")], on the reversed pattern. *)
Fixpoint split_last_star (r acc : list ascii) : option (list ascii * list ascii) :=
  match r with
  | c :: r' => if is_star c then Some (r', acc) else split_last_star r' (c :: acc)
  | [] => None
  end.

Definition prefixAndSuffix (pattern : string) : string * string :=
  match split_last_star (rev (list_ascii_of_string pattern)) [] with
  | Some (p, s) => (string_of_list_ascii (rev p), string_of_list_ascii s)
  | None => (pattern, EmptyString)
  end.

Definition os_TempDir : string := "/tmp".

(** The candidate names are [dir/prefix<random>suffix]: for a directory in
    clean form ([clean_dir]) this is the name [ioutil.TempFile] builds; for
    a directory that ends in a separator or has [.] or [..] elements it is
    another spelling of the same path, and the statements about recorded
    names assume a clean directory.  [rnd] is the first string the
    generator yields and [rnds] the ones it yields after a collision.  The
    directory must exist. *)
Fixpoint TempFile_try (fs : FS) (stem suffix : string) (rnd : string)
    (rnds : list string) : error + (string * FS) :=
  let name := stem +:+ rnd +:+ suffix in
  match fs !! name with
  | None => inr (name, <[name := File []]> fs)
  | Some _ =>
      match rnds with
      | [] => inl (PathError "open" name EEXIST)
      | rnd' :: rnds' => TempFile_try fs stem suffix rnd' rnds'
      end
  end.

Definition TempFile (fs : FS) (dir pattern : string) (rnd : string * list string)
    : error + (string * FS) :=
  let dir := if String.eqb dir EmptyString then os_TempDir else dir in
  let '(prefix, suffix) := prefixAndSuffix pattern in
  match fs !! dir with
  | Some Dir => TempFile_try fs (dir +:+ "/" +:+ prefix) suffix (fst rnd) (snd rnd)
  | Some (File _) =>
      inl (PathError "open" (dir +:+ "/" +:+ prefix +:+ fst rnd +:+ suffix) ENOTDIR)
  | None =>
      inl (PathError "open" (dir +:+ "/" +:+ prefix +:+ fst rnd +:+ suffix)
             match parent_of fs dir with
             | ParentIsFile => ENOTDIR
             | _ => ENOENT
             end)
  end.

(** ** HTTP *)

Abbreviation Header := (gmap string (list string)).

Definition Header_Add (h : Header) (key value : string) : Header :=
  <[key := default [] (h !! key) ++ [value]]> h.

Definition Header_Set (h : Header) (key value : string) : Header :=
  <[key := [value]]> h.

Definition Header_Del (h : Header) (key : string) : Header := delete key h.

(** [http.ResponseWriter]: the header map the handler edits, the status and
    the headers that went out with it, and the body written so far.  The
    headers are those the handler sets; what the server adds on its own
    (the date, a content type sniffed from the body) is not part of the
    model. *)
Record ResponseWriter : Type := mkResponse {
  rw_header : Header;
  rw_sent : option (Z * Header);
  rw_body : list byte
}.

Definition newResponse : ResponseWriter :=
  {| rw_header := ∅; rw_sent := None; rw_body := [] |}.

Definition set_rw_header (w : ResponseWriter) (h : Header) : ResponseWriter :=
  {| rw_header := h; rw_sent := rw_sent w; rw_body := rw_body w |}.

(** [w.WriteHeader(code)]: only the first call counts. *)
Definition WriteHeader (w : ResponseWriter) (code : Z) : ResponseWriter :=
  match rw_sent w with
  | Some _ => w
  | None =>
      {| rw_header := rw_header w; rw_sent := Some (code, rw_header w);
         rw_body := rw_body w |}
  end.

Definition StatusOK : Z := 200.
Definition StatusBadRequest : Z := 400.
Definition StatusInternalServerError : Z := 500.
Definition StatusNotImplemented : Z := 501.

#[global] Instance ResponseWriter_Writer : Writer ResponseWriter := fun w p =>
  let w' := WriteHeader w StatusOK in
  (None, {| rw_header := rw_header w'; rw_sent := rw_sent w';
            rw_body := rw_body w' ++ p |}).

(** [http.Error]. *)
Definition http_Error (w : ResponseWriter) (msg : string) (code : Z) : ResponseWriter :=
  let h := Header_Del (rw_header w) "Content-Length" in
  let h := Header_Set h "Content-Type" "text/plain; charset=utf-8" in
  let h := Header_Set h "X-Content-Type-Options" "nosniff" in
  let w := WriteHeader (set_rw_header w h) code in
  snd (io_Write w (list_byte_of_string (msg +:+ String "010"%char EmptyString))).

(** A response that has only been written to by a copy: if the header
    went out, it went out with status 200. *)
Definition sent_ok (w : ResponseWriter) : Prop :=
  rw_sent w = None ∨ ∃ h, rw_sent w = Some (StatusOK, h).

(** [multipart.FileHeader]. *)
Record FileHeader : Type := mkFileHeader {
  Filename : string;
  MIMEHeader : Header
}.

(** [*http.Request], as far as the handlers look at it: the outcome of
    [ParseMultipartForm], the form files by field name, the URL query, the
    header map, and the outcome of decoding the JSON body into its
    [filenames] field. *)
Record Request (R : Type) : Type := mkRequest {
  ParseMultipartForm : option error;
  FormFile : string → option (R * FileHeader);
  URL_Query : string → list string;
  req_Header : Header;
  Decode_filenames : error + list string
}.

Arguments ParseMultipartForm {R} r.
Arguments FormFile {R} r key.
Arguments URL_Query {R} r key.
Arguments req_Header {R} r.
Arguments Decode_filenames {R} r.

Definition set_req_Header {R : Type} (r : Request R) (h : Header) : Request R :=
  {| ParseMultipartForm := ParseMultipartForm r; FormFile := FormFile r;
     URL_Query := URL_Query r; req_Header := h;
     Decode_filenames := Decode_filenames r |}.

(** ** The handlers of [NimbusHTTPFormImpl] *)

Definition NewHTTPFormImpl (dfk : string) (maxSize buffSize : Z) (tmpDir : string)
    (exts : list string) (allowNoExt : bool) (fs : FS) : NimbusHTTPFormImpl * FS :=
  ({| maxSize := maxSize; tBuffSize := buffSize; dfk := dfk; mimeCache := ∅;
      tmpDir := tmpDir; allowedExtensions := exts; allowNoExt := allowNoExt |},
   os_Mkdir fs tmpDir).

(** [os.RemoveAll(n.tmpDir)]: nothing is removed for the empty path and
    for a path that ends in a dot element; the error is dropped. *)
Definition Cleanup (n : NimbusHTTPFormImpl) (fs : FS) : FS :=
  if String.eqb (tmpDir n) EmptyString || endsWithDot (tmpDir n) then fs
  else
    filter (fun kv => ¬ (fst kv = tmpDir n
                         ∨ String.prefix (tmpDir n +:+ "/") (fst kv) = true)) fs.

Record downloadedFile : Type := mkDownloaded {
  name : string;
  contentType : list string
}.

Definition downloadFromRequest {R : Type} `{Reader R} (fuel : nat)
    (n : NimbusHTTPFormImpl) (fs : FS) (r : Request R) (fileKey : string)
    (rnd : string * list string) : run (FS * (error + downloadedFile)) :=
  match FormFile r fileKey with
  | None => Done (fs, inl (fmt_Errorf "failed to obtain file from request"))
  | Some (uploaded, hdr) =>
      let fExt := Path.Ext (Filename hdr) in
      match isExtAllowed n fExt with
      | Some err => Done (fs, inl err)
      | None =>
          match TempFile fs (tmpDir n) ("*" +:+ fExt) rnd with
          | inl err => Done (fs, inl err)
          | inr (tempFile, fs1) =>
              '(err, _, w) ← write fuel uploaded {| w_fs := fs1; w_name := tempFile |}
                                   (tBuffSize n);
              match err with
              | Some e => Done (w_fs w, inl e)
              | None =>
                  Done (w_fs w,
                        inr {| name := tempFile;
                               contentType := default [] (MIMEHeader hdr !! "Content-Type") |})
              end
          end
      end
  end.

Definition Upload {R : Type} `{Reader R} (fuel : nat) (n : NimbusHTTPFormImpl)
    (fs : FS) (w : ResponseWriter) (r : Request R) (rnd : string * list string)
    : run (NimbusHTTPFormImpl * FS * ResponseWriter) :=
  match ParseMultipartForm r with
  | Some _ => Done (n, fs, http_Error w "error parsing form" StatusBadRequest)
  | None =>
      '(fs', res) ← downloadFromRequest fuel n fs r (dfk n) rnd;
      match res with
      | inl err => Done (n, fs', http_Error w (Error err) StatusInternalServerError)
      | inr downloaded =>
          Done (set_mimeCache n (<[name downloaded := contentType downloaded]> (mimeCache n)),
                fs',
                snd (io_Write w (list_byte_of_string (Path.Base (name downloaded)))))
      end
  end.

(** [Download] hands back the response and the request, whose header map
    it edits. *)
Definition Download {R : Type} (fuel : nat) (n : NimbusHTTPFormImpl) (fs : FS)
    (w : ResponseWriter) (r : Request R) : run (ResponseWriter * Request R) :=
  match URL_Query r (dfk n) with
  | [] => Done (http_Error w "expected file name" StatusBadRequest, r)
  | file0 :: _ =>
      let fName := tmpFilePath n file0 in
      match os_Open fs fName with
      | inl _ =>
          Done (http_Error w ("cannot open: " +:+ Path.Base fName) StatusBadRequest, r)
      | inr f =>
          let r' :=
            set_req_Header r
              (fold_left (fun h t => Header_Add h "Content-Type" t)
                         (default [] (mimeCache n !! file0)) (req_Header r)) in
          '(err, _, w') ← write fuel f w (tBuffSize n);
          match err with
          | Some _ =>
              Done (http_Error w' ("cannot write: " +:+ Path.Base fName)
                               StatusInternalServerError, r')
          | None => Done (w', r')
          end
      end
  end.

Definition UploadMany (w : ResponseWriter) : ResponseWriter :=
  http_Error w "not implemented" StatusNotImplemented.

Definition Delete {R : Type} (n : NimbusHTTPFormImpl) (fs : FS) (w : ResponseWriter)
    (r : Request R) : NimbusHTTPFormImpl * FS * ResponseWriter :=
  match URL_Query r (dfk n) with
  | [] => (n, fs, http_Error w "expected file name" StatusBadRequest)
  | file0 :: _ =>
      let fName := tmpFilePath n file0 in
      match os_Remove fs (tmpFilePath n fName) with
      | inl err =>
          (n, fs, http_Error w ("failed to delete file: " +:+ Error err) StatusBadRequest)
      | inr fs' =>
          (set_mimeCache n (delete (Path.Base fName) (mimeCache n)), fs', w)
      end
  end.

(** ** Earlier variants of the handlers *)

(** The variant of [Upload] that precedes [downloadFromRequest]: the same
    steps written in line, with its own status codes. *)
Module Inline.

Definition Upload {R : Type} `{Reader R} (fuel : nat) (n : NimbusHTTPFormImpl)
    (fs : FS) (w : ResponseWriter) (r : Request R) (rnd : string * list string)
    : run (NimbusHTTPFormImpl * FS * ResponseWriter) :=
  match ParseMultipartForm r with
  | Some _ => Done (n, fs, http_Error w "error parsing form" StatusBadRequest)
  | None =>
      match FormFile r (dfk n) with
      | None =>
          Done (n, fs, http_Error w "failed to obtain file from request" StatusBadRequest)
      | Some (uploaded, hdr) =>
          let fExt := Path.Ext (Filename hdr) in
          match isExtAllowed n fExt with
          | Some err => Done (n, fs, http_Error w (Error err) StatusBadRequest)
          | None =>
              match TempFile fs (tmpDir n) ("*" +:+ fExt) rnd with
              | inl err =>
                  Done (n, fs, http_Error w (Error err) StatusInternalServerError)
              | inr (tempFile, fs1) =>
                  '(err, _, tf) ← write fuel uploaded
                                    {| w_fs := fs1; w_name := tempFile |} (tBuffSize n);
                  match err with
                  | Some e =>
                      Done (n, w_fs tf,
                            http_Error w (Error e) StatusInternalServerError)
                  | None =>
                      Done (set_mimeCache n
                              (<[tempFile := default [] (MIMEHeader hdr !! "Content-Type")]>
                                 (mimeCache n)),
                            w_fs tf,
                            snd (io_Write w (list_byte_of_string (Path.Base tempFile))))
                  end
              end
          end
      end
  end.

End Inline.

(** The first variant of [Upload] finds the extension itself:
    [strings.LastIndex(name, ".")], an error when there is no dot (or when
    the index is the length of the name), else [name[lastDotIdx:]]. *)
Module First.

(** The suffix from the last dot on, scanning the reversed name. *)
Fixpoint last_dot_suffix (r acc : list ascii) : option (list ascii) :=
  match r with
  | c :: r' => if Path.is_dot c then Some (c :: acc) else last_dot_suffix r' (c :: acc)
  | [] => None
  end.

Definition errNoDot : string := "cannot determine filename extension".

Definition fileExt (filename : string) : string + string :=
  match last_dot_suffix (rev (list_ascii_of_string filename)) [] with
  | None => inl errNoDot
  | Some e =>
      (* [lastDotIdx == len(hdr.Filename)]: the suffix would be empty *)
      if (length e =? 0)%nat then inl errNoDot
      else inr (string_of_list_ascii e)
  end.

End First.

(** ** The archiver *)

(** [archive/zip] is taken through its interface: a writer over a fresh
    [bytes.Buffer], [Create], the [Write] of the entry that [Create] opened,
    [Close], and the bytes the buffer holds. *)
Class ZipWriter (ZW : Type) : Type := {
  zip_NewWriter : ZW;
  zip_Create : ZW → string → option error * ZW;
  zip_entry_Writer :: Writer ZW;
  zip_Close : ZW → option error * ZW;
  buffer_Bytes : ZW → list byte
}.

(** The reads of [io.Copy]: chunks of 32 KiB. *)
Fixpoint chunks (fuel size : nat) (l : list byte) : list (list byte) :=
  match fuel, l with
  | S fuel', _ :: _ => take size l :: chunks fuel' size (drop size l)
  | _, _ => []
  end.

Fixpoint copy_chunks {W : Type} `{Writer W} (dst : W) (cs : list (list byte))
    : option error * W :=
  match cs with
  | [] => (None, dst)
  | c :: cs' =>
      match io_Write dst c with
      | (Some e, dst') => (Some e, dst')
      | (None, dst') => copy_chunks dst' cs'
      end
  end.

(** [io.Copy(dst, f)] from an open file. *)
Definition io_Copy {W : Type} `{Writer W} (dst : W) (f : osFile) : option error * W :=
  match f_node f with
  | Dir => (Some (PathError "read" (f_name f) EISDIR), dst)
  | File data =>
      let rest := drop (f_off f) data in
      copy_chunks dst (chunks (length rest) (32 * 1024) rest)
  end.

Record Zipper (ZW : Type) : Type := mkZipper { zw : ZW }.
Arguments mkZipper {ZW} zw.
Arguments zw {ZW} z.

Section Archiver.
Context {ZW : Type} `{ZipWriter ZW}.

Definition NewZipper : Zipper ZW := mkZipper zip_NewWriter.

Definition AddFile (z : Zipper ZW) (fs : FS) (filename : string)
    : option error * Zipper ZW :=
  match os_Open fs filename with
  | inl err => (Some err, z)
  | inr f =>
      match zip_Create (zw z) (Path.Base filename) with
      | (Some err, zw') => (Some err, mkZipper zw')
      | (None, zw') =>
          let '(err, zw'') := io_Copy zw' f in (err, mkZipper zw'')
      end
  end.

Definition Zipper_Close (z : Zipper ZW) : option error * Zipper ZW :=
  let '(err, zw') := zip_Close (zw z) in (err, mkZipper zw').

(** [for _, filename := range req.Filenames], left at the first error. *)
Fixpoint addFiles (n : NimbusHTTPFormImpl) (fs : FS) (archiver : Zipper ZW)
    (filenames : list string) : option error * Zipper ZW :=
  match filenames with
  | [] => (None, archiver)
  | filename :: rest =>
      match AddFile archiver fs (tmpFilePath n filename) with
      | (Some err, a) => (Some err, a)
      | (None, a) => addFiles n fs a rest
      end
  end.

Definition archiveErrStub : string := "failed to compile archive: ".

(** The double quote character. *)
Definition dquote : string := String "034"%char EmptyString.

Definition DownloadMany {R : Type} (n : NimbusHTTPFormImpl) (fs : FS)
    (w : ResponseWriter) (r : Request R) : ResponseWriter :=
  match Decode_filenames r with
  | inl _ => http_Error w "failed to decode request" StatusBadRequest
  | inr filenames =>
      match addFiles n fs NewZipper filenames with
      | (Some err, _) => http_Error w (archiveErrStub +:+ Error err) StatusBadRequest
      | (None, archiver) =>
          match Zipper_Close archiver with
          | (Some err, _) =>
              http_Error w (archiveErrStub +:+ Error err) StatusInternalServerError
          | (None, archiver') =>
              let h := Header_Add (rw_header w) "Content-Type" "application/zip" in
              let h := Header_Add h "Content-Disposition"
                         ("attachment; filename=" +:+ dquote +:+ "archive.zip" +:+ dquote) in
              snd (io_Write (set_rw_header w h) (buffer_Bytes (zw archiver')))
          end
      end
  end.

End Archiver.

(** A stand-in for [archive/zip] to run the archiver on examples: every
    entry is framed by its name, nothing is compressed, and no call fails
    before [Close]. *)
Record plainZip : Type := mkPlainZip {
  pz_buffer : list byte;
  pz_closed : bool
}.

Definition errZipClosed : error := errorString "zip: write to closed file".

#[global] Instance plainZip_Writer : Writer plainZip := fun z p =>
  if pz_closed z then (Some errZipClosed, z)
  else (None, {| pz_buffer := pz_buffer z ++ p; pz_closed := false |}).

#[global] Instance plainZip_ZipWriter : ZipWriter plainZip := {|
  zip_NewWriter := {| pz_buffer := []; pz_closed := false |};
  zip_Create := fun z entry =>
    if pz_closed z then (Some errZipClosed, z)
    else (None, {| pz_buffer := pz_buffer z ++ list_byte_of_string ("PK:" +:+ entry +:+ ":");
                   pz_closed := false |});
  zip_entry_Writer := plainZip_Writer;
  zip_Close := fun z =>
    if pz_closed z then (Some errZipClosed, z)
    else (None, {| pz_buffer := pz_buffer z ++ list_byte_of_string "PK:end";
                   pz_closed := true |});
  buffer_Bytes := pz_buffer
|}.

(** The bytes of the file at a path, if it is a regular file. *)
Definition file_data (fs : FS) (path : string) : list byte :=
  match fs !! path with
  | Some (File data) => data
  | _ => []
  end.

(** A string without the pattern character of [TempFile]. *)
Definition star_free (s : string) : Prop :=
  Forall (fun c => is_star c = false) (list_ascii_of_string s).

(** A string without a dot and without a separator, as the random part of
    a temporary name is. *)
Definition plain (s : string) : Prop :=
  Forall (fun c => Path.is_slash c = false ∧ Path.is_dot c = false)
         (list_ascii_of_string s).

(** A request that only carries a URL query. *)
Definition queryRequest (key : string) (values : list string) : Request sectionReader :=
  {| ParseMultipartForm := None;
     FormFile := fun _ => None;
     URL_Query := fun k => if String.eqb k key then values else [];
     req_Header := ∅;
     Decode_filenames := inl EOF |}.

(** A request that carries one form file held in memory. *)
Definition formRequest (key filename : string) (types : list string) (payload : list byte)
    : Request sectionReader :=
  {| ParseMultipartForm := None;
     FormFile := fun k =>
       if String.eqb k key
       then Some ({| s_data := payload; s_off := 0 |},
                  {| Filename := filename;
                     MIMEHeader := {[ "Content-Type" := types ]} |})
       else None;
     URL_Query := fun _ => [];
     req_Header := ∅;
     Decode_filenames := inl EOF |}.

(** A request whose JSON body names the files to archive. *)
Definition archiveRequest (filenames : list string) : Request sectionReader :=
  {| ParseMultipartForm := None;
     FormFile := fun _ => None;
     URL_Query := fun _ => [];
     req_Header := ∅;
     Decode_filenames := inr filenames |}.

(** A store for the examples: only [.png] files, no extension-less files,
    the default transfer buffer of 256 bytes, the directory [tmp]. *)
Definition pngStore : NimbusHTTPFormImpl * FS :=
  NewHTTPFormImpl "_file_" Mb10 DefaultTransferBuffSize "tmp" [".png"] false ∅.

(** The upload of the example: [photo.png], the bytes [FF D8], declared
    as [image/png]. *)
Definition photoRequest : Request sectionReader :=
  formRequest "_file_" "photo.png" ["image/png"] [Byte.xff; Byte.xd8].

(** An upload whose stream breaks after two bytes. *)
Definition brokenUpload : Request scriptReader :=
  {| ParseMultipartForm := None;
     FormFile := fun k =>
       if String.eqb k "_file_"
       then Some ({| script := [([Byte.x41; Byte.x42], None);
                                ([], Some (errorString "unexpected EOF"))] |},
                  {| Filename := "photo.png";
                     MIMEHeader := {[ "Content-Type" := ["image/png"] ]} |})
       else None;
     URL_Query := fun _ => [];
     req_Header := ∅;
     Decode_filenames := inl EOF |}.

(** * Properties *)

(** ** Paths *)

Section PathFacts.
Import Path.

Lemma strip_slashes_name (r : list ascii) c :
  is_slash c = false → strip_slashes (c :: r) = c :: r.
Proof. intros H; simpl; by rewrite H. Qed.

Lemma last_element_app (e r : list ascii) :
  Forall (fun c => is_slash c = false) e →
  last_element (e ++ "/"%char :: r) = e.
Proof.
  induction 1 as [|c e Hc _ IH]; simpl; [done|].
  by rewrite Hc, IH.
Qed.

Lemma last_element_slash_free (r : list ascii) :
  Forall (fun c => is_slash c = false) (last_element r).
Proof.
  induction r as [|c r IH]; simpl; [constructor|].
  destruct (is_slash c) eqn:Hc; by constructor.
Qed.

Lemma list_ascii_of_string_app (s t : string) :
  list_ascii_of_string (s +:+ t)
  = list_ascii_of_string s ++ list_ascii_of_string t.
Proof. induction s as [|c s IH]; simpl; [done|by rewrite IH]. Qed.

Lemma append_nonempty (s t : string) : t ≠ EmptyString → s +:+ t ≠ EmptyString.
Proof. intros H E. destruct s; simpl in E; [done|discriminate]. Qed.

(** [path.Base] of [dir/name] is [name] for a proper file name. *)
Lemma Base_join (d b : string) :
  b ≠ EmptyString → slash_free b → Base (d +:+ "/" +:+ b) = b.
Proof.
  intros Hne Hsf. unfold Base.
  destruct (String.eqb_spec (d +:+ "/" +:+ b) EmptyString) as [E|_].
  { exfalso. revert E. apply append_nonempty, append_nonempty, Hne. }
  rewrite !list_ascii_of_string_app, !rev_app_distr. simpl.
  rewrite <- app_assoc. simpl.
  assert (Hr : Forall (fun c => is_slash c = false) (rev (list_ascii_of_string b))).
  { unfold slash_free in Hsf. apply Forall_forall. intros c Hc.
    rewrite Forall_forall in Hsf. apply Hsf.
    apply list_elem_of_In. apply list_elem_of_In in Hc.
    by apply in_rev. }
  destruct (rev (list_ascii_of_string b)) as [|c r] eqn:Er.
  { exfalso. apply Hne. apply (f_equal (@rev ascii)) in Er.
    rewrite rev_involutive in Er. simpl in Er.
    rewrite <- (string_of_list_ascii_of_string b). by rewrite Er. }
  inversion Hr as [|? ? Hc Hr']; subst.
  change ((c :: r) ++ "/"%char :: rev (list_ascii_of_string d))
    with (c :: (r ++ "/"%char :: rev (list_ascii_of_string d))).
  rewrite strip_slashes_name by done.
  change (c :: (r ++ "/"%char :: rev (list_ascii_of_string d)))
    with ((c :: r) ++ "/"%char :: rev (list_ascii_of_string d)).
  rewrite last_element_app by (by constructor).
  change (rev r ++ [c]) with (rev (c :: r)).
  rewrite <- Er, rev_involutive.
  apply string_of_list_ascii_of_string.
Qed.

End PathFacts.

(** ** Extension policy *)

Section ExtensionPolicy.

Lemma ext_range_elem_of (ext : string) (exts : list string) :
  ext_range ext exts false = true ↔ ext ∈ exts.
Proof.
  induction exts as [|e exts IH]; simpl.
  - split; [discriminate|]. intros Hin. by apply not_elem_of_nil in Hin.
  - destruct (String.eqb_spec ext e) as [->|Hne].
    + split; [intros _; left|done].
    + rewrite IH. split; [by right|].
      intros Hin. apply elem_of_cons in Hin as [?|?]; [congruence|done].
Qed.

Lemma sentinel_test (exts : list string) :
  (length exts =? 1)%nat && String.eqb (hd EmptyString exts) "_all_" = true
  ↔ exts = ExtAll.
Proof.
  unfold ExtAll. split.
  - intros Hb. apply andb_true_iff in Hb as [Hlen Hhd].
    apply Nat.eqb_eq in Hlen.
    destruct exts as [|e [|e' exts]]; simpl in *; try discriminate.
    apply String.eqb_eq in Hhd. by subst.
  - intros ->. reflexivity.
Qed.

Lemma empty_ext_test (ext : string) (b : bool) :
  String.eqb ext EmptyString && negb b = true ↔ ext = EmptyString ∧ b = false.
Proof.
  rewrite andb_true_iff, String.eqb_eq, negb_true_iff. done.
Qed.

(** What an error of [isExtAllowed] tells. *)
Lemma isExtAllowed_Some (n : NimbusHTTPFormImpl) (ext : string) (err : error) :
  isExtAllowed n ext = Some err →
  (ext = EmptyString ∧ allowNoExt n = false ∧ err = errNoExt)
  ∨ (¬ (ext = EmptyString ∧ allowNoExt n = false)
     ∧ allowedExtensions n ≠ ExtAll
     ∧ (ext ∉ allowedExtensions n)
     ∧ err = errExtNotPermitted).
Proof.
  unfold isExtAllowed.
  destruct (String.eqb ext EmptyString && negb (allowNoExt n)) eqn:E1.
  { apply empty_ext_test in E1 as [-> ->]. intros [= <-]. by left. }
  destruct ((length (allowedExtensions n) =? 1)%nat
            && String.eqb (hd EmptyString (allowedExtensions n)) "_all_") eqn:E2; [done|].
  destruct (ext_range ext (allowedExtensions n) false) eqn:E3; [done|].
  intros [= <-]. right. split; [|split; [|split; [|done]]].
  - rewrite <- empty_ext_test. congruence.
  - rewrite <- sentinel_test. congruence.
  - rewrite <- ext_range_elem_of. congruence.
Qed.

(** When [isExtAllowed] returns [nil]. *)
Lemma isExtAllowed_None (n : NimbusHTTPFormImpl) (ext : string) :
  isExtAllowed n ext = None
  ↔ ¬ (ext = EmptyString ∧ allowNoExt n = false)
    ∧ (allowedExtensions n = ExtAll ∨ ext ∈ allowedExtensions n).
Proof.
  unfold isExtAllowed.
  destruct (String.eqb ext EmptyString && negb (allowNoExt n)) eqn:E1.
  { apply empty_ext_test in E1. split; [done|]. intros [Hn _]. by destruct Hn. }
  assert (H1 : ¬ (ext = EmptyString ∧ allowNoExt n = false))
    by (rewrite <- empty_ext_test; congruence).
  destruct ((length (allowedExtensions n) =? 1)%nat
            && String.eqb (hd EmptyString (allowedExtensions n)) "_all_") eqn:E2.
  { apply sentinel_test in E2. split; [by intros _; split; [|left]|done]. }
  assert (H2 : allowedExtensions n ≠ ExtAll)
    by (rewrite <- sentinel_test; congruence).
  destruct (ext_range ext (allowedExtensions n) false) eqn:E3; simpl.
  - apply ext_range_elem_of in E3. split; [by intros _; split; [|right]|done].
  - assert (H3 : ext ∉ allowedExtensions n)
      by (rewrite <- ext_range_elem_of; congruence).
    split; [done|]. intros [_ [?|?]]; done.
Qed.

(** C7.  For every extension and every configuration, [isExtAllowed]
    decides by the three ordered rules: it rejects with the no-extension
    error when the extension is empty and extension-less files are
    disallowed; otherwise it accepts when the allow-list is the allow-all
    sentinel [ExtAll]; otherwise it accepts exactly when the extension is
    equal, byte for byte, to an entry of the allow-list, and rejects with
    the not-permitted error if it is not. *)
Theorem isExtAllowed_rules (n : NimbusHTTPFormImpl) (ext : string) :
  isExtAllowed n ext
  = verdict_error (IsAllowed_rules ExtAll (allowedExtensions n) (allowNoExt n) ext).
Proof.
  unfold isExtAllowed, IsAllowed_rules.
  destruct (decide (ext = EmptyString ∧ allowNoExt n = false)) as [H1|H1].
  { apply empty_ext_test in H1. by rewrite H1. }
  rewrite <- empty_ext_test in H1. apply not_true_is_false in H1. rewrite H1.
  destruct (decide (allowedExtensions n = ExtAll)) as [H2|H2].
  { apply sentinel_test in H2. by rewrite H2. }
  rewrite <- sentinel_test in H2. apply not_true_is_false in H2. rewrite H2.
  destruct (decide (ext ∈ allowedExtensions n)) as [H3|H3].
  - apply ext_range_elem_of in H3. by rewrite H3.
  - rewrite <- ext_range_elem_of in H3. apply not_true_is_false in H3.
    by rewrite H3.
Qed.

(** The comparison of the third rule is case-sensitive and keeps the
    leading dot. *)
Example isExtAllowed_verbatim :
  let n := fst (NewHTTPFormImpl "_file_" Mb10 256 "tmp" [".png"] false ∅) in
  isExtAllowed n ".png" = None
  ∧ isExtAllowed n ".PNG" = Some errExtNotPermitted
  ∧ isExtAllowed n "png" = Some errExtNotPermitted
  ∧ isExtAllowed n EmptyString = Some errNoExt.
Proof. repeat split. Qed.

(** C10.  The allow-all sentinel only counts when the allow-list is
    exactly [["_all_"]]: with an allow-list that holds ["_all_"] among
    other entries, an extension is accepted only if it is literally one
    of the entries of the list (and exactly then, unless it is empty and
    extension-less files are disallowed). *)
Theorem sentinel_only_when_alone (n : NimbusHTTPFormImpl) (ext : string) :
  "_all_" ∈ allowedExtensions n →
  allowedExtensions n ≠ ExtAll →
  (isExtAllowed n ext = None → ext ∈ allowedExtensions n)
  ∧ (ext ∈ allowedExtensions n → ¬ (ext = EmptyString ∧ allowNoExt n = false) →
     isExtAllowed n ext = None).
Proof.
  intros _ Hne. split.
  - intros Hacc. apply isExtAllowed_None in Hacc as [_ [Hall|Hin]]; done.
  - intros Hin Hext. apply isExtAllowed_None. split; [done|by right].
Qed.

Lemma sentinel_only_when_alone_witness :
  let n := fst (NewHTTPFormImpl "_file_" Mb10 256 "tmp" ["_all_"; ".txt"] false ∅) in
  (isExtAllowed n ".txt" = None → ".txt" ∈ allowedExtensions n)
  ∧ (".txt" ∈ allowedExtensions n →
     ¬ (".txt" = EmptyString ∧ allowNoExt n = false) →
     isExtAllowed n ".txt" = None).
Proof.
  apply (sentinel_only_when_alone
           (fst (NewHTTPFormImpl "_file_" Mb10 256 "tmp" ["_all_"; ".txt"] false ∅))
           ".txt").
  - simpl. apply elem_of_cons. by left.
  - simpl. unfold ExtAll. discriminate.
Defined.

(** Such a list does not allow every extension. *)
Example sentinel_among_others_rejects :
  let n := fst (NewHTTPFormImpl "_file_" Mb10 256 "tmp" ["_all_"; ".txt"] true ∅) in
  isExtAllowed n ".png" = Some errExtNotPermitted
  ∧ isExtAllowed n "_all_" = None.
Proof. split; reflexivity. Qed.

End ExtensionPolicy.

(** ** Path resolution *)

Section Resolution.
Import Path.

Lemma strip_slashes_head (r : list ascii) :
  match strip_slashes r with
  | [] => Forall (fun c => is_slash c = true) r
  | c :: _ => is_slash c = false
  end.
Proof.
  induction r as [|c r IH]; simpl; [constructor|].
  destruct (is_slash c) eqn:Hc; [|done].
  destruct (strip_slashes r); [by constructor|done].
Qed.

Lemma has_name_rev (s : string) :
  has_name s → Exists (fun c => is_slash c = false) (rev (list_ascii_of_string s)).
Proof.
  unfold has_name. rewrite !Exists_exists.
  intros (c & Hin & Hc). exists c. split; [|done].
  apply list_elem_of_In, in_rev. rewrite rev_involutive.
  by apply list_elem_of_In.
Qed.

Lemma has_name_app (s t : string) : has_name s → has_name (s +:+ t).
Proof.
  unfold has_name. rewrite list_ascii_of_string_app, Exists_app. by left.
Qed.

Lemma has_name_nonempty (s : string) : has_name s → s ≠ EmptyString.
Proof. intros H ->. by apply Exists_nil in H. Qed.

Lemma string_of_list_ascii_inj (l1 l2 : list ascii) :
  string_of_list_ascii l1 = string_of_list_ascii l2 → l1 = l2.
Proof.
  intros E. apply (f_equal list_ascii_of_string) in E.
  by rewrite !list_ascii_of_string_of_list_ascii in E.
Qed.

(** The last element of a path with a name in it is a proper file name:
    not empty and without a separator. *)
Lemma Base_has_name (p : string) :
  has_name p →
  ∃ c e, last_element (strip_slashes (rev (list_ascii_of_string p))) = c :: e
         ∧ is_slash c = false
         ∧ Base p = string_of_list_ascii (rev (c :: e)).
Proof.
  intros Hp. unfold Base.
  destruct (String.eqb_spec p EmptyString) as [E|_].
  { by apply has_name_nonempty in Hp. }
  pose proof (strip_slashes_head (rev (list_ascii_of_string p))) as Hs.
  destruct (strip_slashes (rev (list_ascii_of_string p))) as [|c r] eqn:Es.
  - exfalso. apply has_name_rev in Hp.
    rewrite Exists_exists in Hp. destruct Hp as (c & Hin & Hc).
    rewrite Forall_forall in Hs. specialize (Hs c Hin). congruence.
  - simpl. rewrite Hs. by exists c, (last_element r).
Qed.

Lemma Base_slash_free (p : string) : has_name p → slash_free (Base p).
Proof.
  intros Hp. destruct (Base_has_name p Hp) as (c & e & El & Hc & ->).
  unfold slash_free. rewrite list_ascii_of_string_of_list_ascii.
  pose proof (last_element_slash_free
                (strip_slashes (rev (list_ascii_of_string p)))) as Hf.
  rewrite El in Hf. rewrite Forall_forall in Hf |- *.
  intros x Hx. apply Hf. apply list_elem_of_In, in_rev.
  by apply list_elem_of_In.
Qed.

Lemma Base_nonempty (p : string) : Base p ≠ EmptyString.
Proof.
  unfold Base. destruct (String.eqb p EmptyString); [done|].
  destruct (last_element _) as [|c e]; [done|].
  intros E. apply (f_equal list_ascii_of_string) in E.
  rewrite list_ascii_of_string_of_list_ascii in E. simpl in E.
  by destruct (rev e).
Qed.

Lemma Base_not_root (p : string) : has_name p → Base p ≠ "/".
Proof.
  intros Hp E. pose proof (Base_slash_free p Hp) as Hf.
  rewrite E in Hf. unfold slash_free in Hf. simpl in Hf.
  by inversion Hf.
Qed.

Lemma append_inj_r (d x y : string) : d +:+ x = d +:+ y → x = y.
Proof. induction d as [|c d IH]; simpl; [done|]. intros [= E]. auto. Qed.

(** Resolving twice is resolving once for every key with a name in it,
    which covers every key [Upload] hands out. *)
Lemma tmpFilePath_idempotent (n : NimbusHTTPFormImpl) (k : string) :
  has_name k → tmpFilePath n (tmpFilePath n k) = tmpFilePath n k.
Proof.
  intros Hk. unfold tmpFilePath. f_equal. f_equal.
  apply Base_join; [apply Base_nonempty|by apply Base_slash_free].
Qed.

Lemma Delete_removes_second_join {R : Type} (n : NimbusHTTPFormImpl) (fs : FS)
    (w : ResponseWriter) (r : Request R) (k : string) (rest : list string)
    (data : list byte) :
  URL_Query r (dfk n) = k :: rest →
  fs !! tmpFilePath n (tmpFilePath n k) = Some (File data) →
  Delete n fs w r
  = (set_mimeCache n (delete (Base (tmpFilePath n k)) (mimeCache n)),
     delete (tmpFilePath n (tmpFilePath n k)) fs, w).
Proof. intros Hq Hf. unfold Delete, os_Remove. by rewrite Hq, Hf. Qed.

(** C5.  For some key [k] the path that [Delete] builds by resolving the
    already resolved path a second time differs from the single
    resolution of [k], and the file [Delete] removes is the one at the
    doubly resolved path: for every store whose directory name has a
    character other than the separator there is [k] with
    [tmpFilePath (tmpFilePath k) ≠ tmpFilePath k]. *)
Theorem Delete_second_join_differs (n : NimbusHTTPFormImpl) :
  has_name (tmpDir n) →
  ∃ k : string,
    k ≠ EmptyString
    ∧ tmpFilePath n (tmpFilePath n k) ≠ tmpFilePath n k
    ∧ ∀ (fs : FS) (w : ResponseWriter) (r : Request sectionReader)
        (rest : list string) (data : list byte),
        URL_Query r (dfk n) = k :: rest →
        fs !! tmpFilePath n (tmpFilePath n k) = Some (File data) →
        (Delete n fs w r).1.2 = delete (tmpFilePath n (tmpFilePath n k)) fs.
Proof.
  intros Hd. exists "/". split; [done|]. split.
  - unfold tmpFilePath at 1 3. intros E.
    apply append_inj_r, append_inj_r in E.
    revert E. change (Base "/") with "/".
    apply Base_not_root. unfold tmpFilePath. by apply has_name_app.
  - intros fs w r rest data Hq Hf.
    by rewrite (Delete_removes_second_join n fs w r "/" rest data Hq Hf).
Qed.

Lemma Delete_second_join_differs_witness :
  ∃ k : string,
    k ≠ EmptyString
    ∧ tmpFilePath (fst (NewHTTPFormImpl "_file_" Mb10 256 "tmp" ExtImg false ∅))
        (tmpFilePath (fst (NewHTTPFormImpl "_file_" Mb10 256 "tmp" ExtImg false ∅)) k)
      ≠ tmpFilePath (fst (NewHTTPFormImpl "_file_" Mb10 256 "tmp" ExtImg false ∅)) k.
Proof.
  destruct (Delete_second_join_differs
              (fst (NewHTTPFormImpl "_file_" Mb10 256 "tmp" ExtImg false ∅)))
    as (k & Hk & Hne & _).
  - simpl. unfold has_name. simpl. by left.
  - by exists k.
Defined.

(** The key ["/"] on the store of the example: a single resolution gives
    ["tmp//"], the path handed to [os.Remove] is ["tmp/tmp"]. *)
Example second_join_of_root :
  let n := fst (NewHTTPFormImpl "_file_" Mb10 256 "tmp" ExtImg false ∅) in
  tmpFilePath n "/" = "tmp//" ∧ tmpFilePath n (tmpFilePath n "/") = "tmp/tmp".
Proof. split; reflexivity. Qed.

End Resolution.

(** ** Replies *)

Section Replies.

Lemma http_Error_body (w : ResponseWriter) (msg : string) (code : Z) :
  rw_body (http_Error w msg code)
  = rw_body w ++ list_byte_of_string (msg +:+ String "010"%char EmptyString).
Proof.
  unfold http_Error, io_Write, ResponseWriter_Writer, WriteHeader, set_rw_header.
  simpl. by destruct (rw_sent w).
Qed.

Lemma http_Error_sent_fresh (w : ResponseWriter) (msg : string) (code : Z) :
  rw_sent w = None →
  ∃ h, rw_sent (http_Error w msg code) = Some (code, h).
Proof.
  intros Hw.
  unfold http_Error, io_Write, ResponseWriter_Writer, WriteHeader, set_rw_header.
  simpl. rewrite Hw. simpl. eauto.
Qed.

Lemma http_Error_sent_late (w : ResponseWriter) (msg : string) (code : Z) x :
  rw_sent w = Some x → rw_sent (http_Error w msg code) = Some x.
Proof.
  intros Hw.
  unfold http_Error, io_Write, ResponseWriter_Writer, WriteHeader, set_rw_header.
  simpl. by repeat (rewrite Hw; simpl).
Qed.

Lemma io_Write_sent_ok (w : ResponseWriter) (p : list byte) :
  sent_ok w → sent_ok (snd (io_Write w p)).
Proof.
  unfold sent_ok, io_Write, ResponseWriter_Writer, WriteHeader. simpl.
  intros [Hw|[h Hw]]; rewrite Hw; simpl; right; eauto.
Qed.

Lemma write_loop_sent_ok {R : Type} `{Reader R} (fuel : nat) (f : R)
    (w : ResponseWriter) (buff : list byte) err f' w' :
  sent_ok w →
  write_loop fuel f w buff = Done (err, f', w') → sent_ok w'.
Proof.
  revert f w buff. induction fuel as [|fuel IH]; intros f w buff Hw; simpl; [done|].
  destruct (io_Read f (length buff)) as [[data e] f1].
  case_decide.
  - intros [= _ _ <-]. done.
  - destruct e as [e|].
    + intros [= _ _ <-]. done.
    + apply IH. exact (io_Write_sent_ok w (fill buff data) Hw).
Qed.

Lemma write_sent_ok {R : Type} `{Reader R} (fuel : nat) (f : R)
    (w : ResponseWriter) (buffSize : Z) err f' w' :
  sent_ok w →
  write fuel f w buffSize = Done (err, f', w') → sent_ok w'.
Proof.
  unfold write. destruct (buffSize <? 0); [done|]. apply write_loop_sent_ok.
Qed.

End Replies.

(** ** Upload *)

Section UploadFacts.
Context {R : Type} `{Reader R}.

(** C9 (as amended).  For every upload whose derived extension the
    extension policy rejects, [Upload] fails with the rejection of the
    policy as its message, creates no file and leaves the cache as it
    was.  The rejection is the not-permitted error, except for an empty
    extension with extension-less files disallowed, where it is the
    no-extension error. *)
Theorem Upload_rejected_extension (fuel : nat) (n : NimbusHTTPFormImpl) (fs : FS)
    (w : ResponseWriter) (r : Request R) (rnd : string * list string)
    (uploaded : R) (hdr : FileHeader) (err : error) :
  ParseMultipartForm r = None →
  FormFile r (dfk n) = Some (uploaded, hdr) →
  isExtAllowed n (Path.Ext (Filename hdr)) = Some err →
  Upload fuel n fs w r rnd
  = Done (n, fs, http_Error w (Error err) StatusInternalServerError)
  ∧ (Path.Ext (Filename hdr) = EmptyString ∧ allowNoExt n = false → err = errNoExt)
  ∧ (¬ (Path.Ext (Filename hdr) = EmptyString ∧ allowNoExt n = false) →
     err = errExtNotPermitted
     ∧ allowedExtensions n ≠ ExtAll
     ∧ Path.Ext (Filename hdr) ∉ allowedExtensions n).
Proof.
  intros Hp Hf He. split.
  - unfold Upload, downloadFromRequest. rewrite Hp, Hf, He. reflexivity.
  - apply isExtAllowed_Some in He as [(He1 & He2 & ->)|(Hn & Hall & Hin & ->)].
    + split; [done|]. intros Hc. by destruct Hc.
    + split; [intros Hc; by destruct Hn|done].
Qed.

End UploadFacts.

Section UploadExamples.

Lemma Upload_rejected_extension_witness :
  Upload 1 pngStore.1 pngStore.2 newResponse
    (formRequest "_file_" "notes.txt" ["text/plain"] [Byte.x68; Byte.x69]) ("1", [])
  = Done (pngStore.1, pngStore.2,
          http_Error newResponse "file extension not permitted"
            StatusInternalServerError).
Proof.
  apply (Upload_rejected_extension 1 pngStore.1 pngStore.2 newResponse
           (formRequest "_file_" "notes.txt" ["text/plain"] [Byte.x68; Byte.x69])
           ("1", [])
           {| s_data := [Byte.x68; Byte.x69]; s_off := 0 |}
           {| Filename := "notes.txt";
              MIMEHeader := {[ "Content-Type" := ["text/plain"] ]} |}
           errExtNotPermitted); reflexivity.
Defined.

(** C9 as stated fails on a file name without an extension: the policy
    rejects it, the allow-list is not the allow-all sentinel, and the
    upload fails with the no-extension error, not with the not-permitted
    one. *)
Lemma Upload_README_no_extension :
  allowedExtensions pngStore.1 ≠ ExtAll
  ∧ (Path.Ext "README" ∉ allowedExtensions pngStore.1)
  ∧ isExtAllowed pngStore.1 (Path.Ext "README") = Some errNoExt
  ∧ Upload 1 pngStore.1 pngStore.2 newResponse
      (formRequest "_file_" "README" ["text/plain"] [Byte.x68; Byte.x69]) ("1", [])
    = Done (pngStore.1, pngStore.2,
            http_Error newResponse "no-extension files not permitted"
              StatusInternalServerError)
  ∧ http_Error newResponse "no-extension files not permitted" StatusInternalServerError
    ≠ http_Error newResponse (Error errExtNotPermitted) StatusInternalServerError.
Proof.
  split; [discriminate|]. split.
  { intros Hin. apply list_elem_of_singleton in Hin. discriminate. }
  split; [reflexivity|]. split; [reflexivity|].
  intros E. apply (f_equal rw_body) in E. vm_compute in E. discriminate.
Qed.

End UploadExamples.

(** ** Directory parts *)

Section Parents.
Import Path.

Lemma kind_above_app (fs : FS) (e r : list ascii) :
  Forall (fun c => is_slash c = false) e →
  kind_above fs (e ++ "/"%char :: r) = kind_above fs ("/"%char :: r).
Proof.
  induction 1 as [|c e Hc _ IH]; [done|].
  change ((c :: e) ++ "/"%char :: r) with (c :: (e ++ "/"%char :: r)).
  cbn [kind_above]. by rewrite Hc.
Qed.

(** The directory part of [dir/name] is [dir]. *)
Lemma parent_of_join (fs : FS) (d b : string) :
  slash_free b →
  parent_of fs (d +:+ "/" +:+ b)
  = if String.eqb d EmptyString then ParentIsDir
    else match fs !! d with
         | Some Dir => ParentIsDir
         | Some (File _) => ParentIsFile
         | None =>
             match parent_of fs d with
             | ParentIsFile => ParentIsFile
             | _ => ParentMissing
             end
         end.
Proof.
  intros Hb. unfold parent_of.
  rewrite !list_ascii_of_string_app, !rev_app_distr.
  change (list_ascii_of_string "/") with ["/"%char]. cbn [rev app].
  rewrite <- app_assoc. cbn [app]. rewrite kind_above_app.
  - destruct d as [|c d]; [done|].
    change (String.eqb (String c d) EmptyString) with false. cbv iota.
    cbn [kind_above]. change (is_slash "/"%char) with true. cbv iota.
    destruct (rev (list_ascii_of_string (String c d))) as [|x r] eqn:Er.
    { apply (f_equal (@length ascii)) in Er. rewrite length_rev in Er.
      cbn in Er. lia. }
    rewrite <- Er, rev_involutive, string_of_list_ascii_of_string.
    reflexivity.
  - unfold slash_free in Hb. rewrite Forall_forall in Hb |- *.
    intros c Hc. apply Hb. apply list_elem_of_In, in_rev.
    by apply list_elem_of_In.
Qed.

(** A resolved path lies in the backing directory. *)
Lemma parent_of_tmpFilePath (n : NimbusHTTPFormImpl) (fs : FS) (key : string) :
  has_name key →
  parent_of fs (tmpFilePath n key)
  = if String.eqb (tmpDir n) EmptyString then ParentIsDir
    else match fs !! tmpDir n with
         | Some Dir => ParentIsDir
         | Some (File _) => ParentIsFile
         | None =>
             match parent_of fs (tmpDir n) with
             | ParentIsFile => ParentIsFile
             | _ => ParentMissing
             end
         end.
Proof.
  intros Hk. unfold tmpFilePath. apply parent_of_join. by apply Base_slash_free.
Qed.

End Parents.

(** ** The archiver *)

Section ArchiverFacts.
Context {ZW : Type} `{ZipWriter ZW}.

Lemma AddFile_missing (z : Zipper ZW) (fs : FS) (filename : string) :
  fs !! filename = None →
  ∃ err, AddFile z fs filename = (Some err, z).
Proof. intros Hf. unfold AddFile, os_Open. rewrite Hf. eauto. Qed.

(** In an existing directory the error of a missing file is [ENOENT]. *)
Lemma AddFile_ENOENT (z : Zipper ZW) (n : NimbusHTTPFormImpl) (fs : FS)
    (key : string) :
  Path.has_name key →
  fs !! tmpDir n = Some Dir →
  fs !! tmpFilePath n key = None →
  AddFile z fs (tmpFilePath n key)
  = (Some (PathError "open" (tmpFilePath n key) ENOENT), z).
Proof.
  intros Hk Hdir Hf. unfold AddFile, os_Open. rewrite Hf.
  rewrite (parent_of_tmpFilePath n fs key Hk), Hdir.
  by destruct (String.eqb (tmpDir n) EmptyString).
Qed.

(** The loop stops with an error as soon as a file is missing. *)
Lemma addFiles_missing (n : NimbusHTTPFormImpl) (fs : FS) (keys : list string)
    (k : string) :
  k ∈ keys → fs !! tmpFilePath n k = None →
  ∀ a : Zipper ZW, ∃ err a', addFiles n fs a keys = (Some err, a').
Proof.
  intros Hin Hf. induction keys as [|key keys IH]; intros a.
  { by apply elem_of_nil in Hin. }
  simpl. destruct (AddFile a fs (tmpFilePath n key)) as [[err|] a1] eqn:Ea.
  { eauto. }
  apply elem_of_cons in Hin as [->|Hin].
  - destruct (AddFile_missing a fs _ Hf) as [err Hm]. congruence.
  - by apply IH.
Qed.

Lemma addFiles_app (n : NimbusHTTPFormImpl) (fs : FS) (pre post : list string)
    (a a' : Zipper ZW) :
  addFiles n fs a pre = (None, a') →
  addFiles n fs a (pre ++ post) = addFiles n fs a' post.
Proof.
  revert a. induction pre as [|key pre IH]; intros a; simpl.
  - by intros [= ->].
  - destruct (AddFile a fs (tmpFilePath n key)) as [[err|] a1]; [done|].
    apply IH.
Qed.

(** A failed loop failed at one key, after adding the keys before it. *)
Lemma addFiles_first_failure (n : NimbusHTTPFormImpl) (fs : FS)
    (keys : list string) :
  ∀ (a a' : Zipper ZW) (err : error),
    addFiles n fs a keys = (Some err, a') →
    ∃ pre k' post a1,
      keys = pre ++ k' :: post
      ∧ addFiles n fs a pre = (None, a1)
      ∧ AddFile a1 fs (tmpFilePath n k') = (Some err, a').
Proof.
  induction keys as [|key keys IH]; intros a a' err; cbn [addFiles].
  { discriminate. }
  destruct (AddFile a fs (tmpFilePath n key)) as [[e|] a1] eqn:Ea.
  - intros [= <- <-]. exists [], key, keys, a. by rewrite Ea.
  - intros Hrest. destruct (IH a1 a' err Hrest) as (pre & k' & post & a2 & -> & Hp & Hk).
    exists (key :: pre), k', post, a2. split; [done|]. split; [|done].
    cbn [addFiles]. by rewrite Ea.
Qed.

(** C8 (as amended).  For every list of keys in which some key has no
    backing file, [DownloadMany] fails and sends nothing of the archive:
    the reply is the error reply (status 400) of the first key whose
    [AddFile] fails, which is the missing key or a key before it, and its
    body is the body the response had followed by that one line, so no
    byte of the archive buffer, and no entry of an earlier key, reaches the
    caller.  The error is the not-found error of the missing key (the
    failed open, [ENOENT]) when all keys before it were added; a key
    before it that fails otherwise, as one that names a directory does,
    answers with its own error.  (The not-found part is stated for a
    backing directory that exists and a key whose last element is a name
    other than [.] and [..].) *)
Theorem DownloadMany_missing_key {R : Type} (n : NimbusHTTPFormImpl) (fs : FS)
    (w : ResponseWriter) (r : Request R) (keys : list string) (k : string) :
  Decode_filenames r = inr keys →
  k ∈ keys →
  fs !! tmpFilePath n k = None →
  (∃ err,
      DownloadMany n fs w r
      = http_Error w (archiveErrStub +:+ Error err) StatusBadRequest
      ∧ rw_body (DownloadMany n fs w r)
        = rw_body w ++ list_byte_of_string
                          (archiveErrStub +:+ Error err +:+ String "010"%char EmptyString)
      ∧ ∃ pre k' post a1 a',
          keys = pre ++ k' :: post
          ∧ addFiles n fs NewZipper pre = (None, a1)
          ∧ AddFile a1 fs (tmpFilePath n k') = (Some err, a')
          ∧ k ∉ pre)
  ∧ (∀ pre post,
        keys = pre ++ k :: post →
        (addFiles n fs NewZipper pre).1 = None →
        fs !! tmpDir n = Some Dir →
        Path.has_name k → Path.Base k ≠ "."%string → Path.Base k ≠ ".."%string →
        DownloadMany n fs w r
        = http_Error w
            (archiveErrStub +:+ Error (PathError "open" (tmpFilePath n k) ENOENT))
            StatusBadRequest).
Proof.
  intros Hd Hin Hf. split.
  - destruct (addFiles_missing n fs keys k Hin Hf NewZipper) as (err & a' & Ea).
    exists err. unfold DownloadMany. rewrite Hd, Ea.
    split; [done|]. split; [by rewrite http_Error_body|].
    destruct (addFiles_first_failure n fs keys _ _ _ Ea)
      as (pre & k' & post & a1 & Hkeys & Hpre & Hk').
    exists pre, k', post, a1, a'. repeat split; try done.
    intros Hkp.
    destruct (addFiles_missing n fs pre k Hkp Hf NewZipper) as (e & a2 & Ee).
    congruence.
  - intros pre post -> Hpre Hdir Hk _ _. unfold DownloadMany. rewrite Hd.
    destruct (addFiles n fs NewZipper pre) as [e a'] eqn:Ea.
    simpl in Hpre. subst e.
    rewrite (addFiles_app n fs pre (k :: post) NewZipper a' Ea). simpl.
    by rewrite (AddFile_ENOENT a' n fs k Hk Hdir Hf).
Qed.

End ArchiverFacts.

Section ArchiverExamples.

(** A store with one stored file. *)
Lemma DownloadMany_missing_key_witness :
  DownloadMany (ZW := plainZip) pngStore.1
    (<["tmp/1.png" := File [Byte.x41; Byte.x42]]> pngStore.2)
    newResponse (archiveRequest ["1.png"; "2.png"])
  = http_Error newResponse
      (archiveErrStub +:+ Error (PathError "open" "tmp/2.png" ENOENT))
      StatusBadRequest.
Proof.
  apply (proj2 (DownloadMany_missing_key (ZW := plainZip) pngStore.1
                  (<["tmp/1.png" := File [Byte.x41; Byte.x42]]> pngStore.2)
                  newResponse (archiveRequest ["1.png"; "2.png"])
                  ["1.png"; "2.png"] "2.png" eq_refl
                  ltac:(apply elem_of_cons; right; apply elem_of_cons; by left)
                  eq_refl)
               ["1.png"] []); try reflexivity; try discriminate.
  unfold Path.has_name. cbn. by left.
Defined.

(** C8 as stated fails when a key before the missing one names a
    directory: the key [2.png] has no backing file, and the reply is the
    read error of the directory [tmp/sub], not the not-found error. *)
Lemma DownloadMany_directory_before_missing :
  let fs := <["tmp/sub" := Dir]> pngStore.2 in
  fs !! tmpFilePath pngStore.1 "2.png" = None
  ∧ DownloadMany (ZW := plainZip) pngStore.1 fs newResponse
      (archiveRequest ["sub"; "2.png"])
    = http_Error newResponse
        "failed to compile archive: read tmp/sub: is a directory" StatusBadRequest
  ∧ DownloadMany (ZW := plainZip) pngStore.1 fs newResponse
      (archiveRequest ["sub"; "2.png"])
    ≠ http_Error newResponse
        (archiveErrStub +:+ Error (PathError "open" "tmp/2.png" ENOENT))
        StatusBadRequest.
Proof.
  split; [reflexivity|]. split; [reflexivity|].
  intros E. apply (f_equal rw_body) in E. vm_compute in E. discriminate.
Qed.

(** With both files in place the archive goes out, the entry of the first
    key included. *)
Example DownloadMany_both_present :
  rw_body
    (DownloadMany (ZW := plainZip) pngStore.1
       (<["tmp/2.png" := File [Byte.x43]]>
          (<["tmp/1.png" := File [Byte.x41; Byte.x42]]> pngStore.2))
       newResponse (archiveRequest ["1.png"; "2.png"]))
  = list_byte_of_string "PK:1.png:ABPK:2.png:CPK:end".
Proof. vm_compute. reflexivity. Qed.

End ArchiverExamples.

(** ** Download *)

Section DownloadFacts.
Context {R : Type}.

Lemma Download_absent (fuel : nat) (n : NimbusHTTPFormImpl) (fs : FS)
    (w : ResponseWriter) (r : Request R) (key : string) (rest : list string) :
  URL_Query r (dfk n) = key :: rest →
  fs !! tmpFilePath n key = None →
  Download fuel n fs w r
  = Done (http_Error w ("cannot open: " +:+ Path.Base (tmpFilePath n key))
            StatusBadRequest, r).
Proof. intros Hq Hf. unfold Download, os_Open. by rewrite Hq, Hf. Qed.

Lemma Download_present_not_absent (fuel : nat) (n : NimbusHTTPFormImpl) (fs : FS)
    (w : ResponseWriter) (r : Request R) (key : string) (rest : list string) :
  URL_Query r (dfk n) = key :: rest →
  rw_sent w = None →
  is_Some (fs !! tmpFilePath n key) →
  Download fuel n fs w r
  ≠ Done (http_Error w ("cannot open: " +:+ Path.Base (tmpFilePath n key))
            StatusBadRequest, r).
Proof.
  intros Hq Hw [nd Hf]. unfold Download, os_Open. rewrite Hq, Hf.
  destruct (http_Error_sent_fresh w
              ("cannot open: " +:+ Path.Base (tmpFilePath n key))
              StatusBadRequest Hw) as [h Hh].
  destruct (write fuel _ w (tBuffSize n)) as [[[err f'] w']| |] eqn:Ew;
    cbn [mbind run_bind]; [|done|done].
  pose proof (write_sent_ok (R := osFile) _ _ _ _ _ _ _ (or_introl Hw) Ew) as Hok.
  intros E.
  apply (f_equal (fun x => match x with Done p => rw_sent p.1 | _ => None end)) in E.
  destruct err as [e|]; cbn beta iota delta [fst] in E; rewrite Hh in E.
  - destruct Hok as [Hn|[h' Hs]].
    + destruct (http_Error_sent_fresh w'
                  ("cannot write: " +:+ Path.Base (tmpFilePath n key))
                  StatusInternalServerError Hn) as [h' Hh'].
      rewrite Hh' in E. discriminate.
    + rewrite (http_Error_sent_late w' _ _ _ Hs) in E. discriminate.
  - unfold sent_ok in Hok. rewrite E in Hok.
    destruct Hok as [?|[h' ?]]; discriminate.
Qed.

End DownloadFacts.

Section DownloadExamples.

(** C6 as stated fails: a key with a [..] segment and a separator is
    served, with status 200 and the bytes of the file its last element
    names, and the key [..] resolves to the parent of the backing
    directory. *)
Lemma Download_traversal_key_served :
  let fs := <["tmp/1.png" := File (replicate 256 Byte.x41)]> pngStore.2 in
  let r := queryRequest "_file_" ["../1.png"] in
  (∃ w', Download 3 pngStore.1 fs newResponse r = Done (w', r)
         ∧ rw_sent w' = Some (StatusOK, ∅)
         ∧ rw_body w' = replicate 256 Byte.x41)
  ∧ Download 3 pngStore.1 fs newResponse r
    ≠ Done (http_Error newResponse "cannot open: 1.png" StatusBadRequest, r)
  ∧ tmpFilePath pngStore.1 ".." = "tmp/..".
Proof.
  split; [|split].
  - eexists. split; [vm_compute; reflexivity|]. split; reflexivity.
  - vm_compute. discriminate.
  - reflexivity.
Qed.

End DownloadExamples.

(** ** The chunked copy *)

Section Copy.
Context {R W : Type} `{Reader R} `{Writer W}.

(** A clean end of the stream ends the copy with success. *)
Lemma write_loop_clean_eof (fuel : nat) (f f' : R) (w : W) (buff : list byte) :
  io_Read f (length buff) = (([], Some EOF), f') →
  write_loop (S fuel) f w buff = Done (None, f', w).
Proof. intros Hr. simpl. rewrite Hr. by rewrite decide_True. Qed.

(** Every other error of a read ends the copy with that error, also the
    end of the stream when it comes together with data. *)
Lemma write_loop_read_error (fuel : nat) (f f' : R) (w : W) (buff data : list byte)
    (e : error) :
  io_Read f (length buff) = ((data, Some e), f') →
  ¬ (e = EOF ∧ data = []) →
  write_loop (S fuel) f w buff = Done (Some e, f', w).
Proof.
  intros Hr Hne. simpl. rewrite Hr. rewrite decide_False; [done|].
  intros [[= ->] Hlen]. apply Hne. split; [done|].
  by apply length_zero_iff_nil.
Qed.

(** A read without an error is followed by a write of the whole buffer,
    whose outcome does not matter. *)
Lemma write_loop_step (fuel : nat) (f f' : R) (w : W) (buff data : list byte) :
  io_Read f (length buff) = ((data, None), f') →
  write_loop (S fuel) f w buff
  = write_loop fuel f' (snd (io_Write w (fill buff data))) (fill buff data).
Proof.
  intros Hr. simpl. rewrite Hr. rewrite decide_False by (intros [? _]; done).
  by destruct (io_Write w (fill buff data)).
Qed.

End Copy.

Section CopyExamples.

(** C3: what the copy does where the claim asks for more.  A writer that
    fails on every call does not fail the copy; a last read that brings
    data together with the end of the stream is answered with the error
    [EOF], and its data is not written; a payload shorter than the buffer
    is written out with the rest of the buffer behind it. *)
Theorem write_failures_and_final_read :
  write 3 {| s_data := [Byte.x41; Byte.x42]; s_off := 0 |} {| bw_calls := 0 |} 2
  = Done (None, {| s_data := [Byte.x41; Byte.x42]; s_off := 2 |}, {| bw_calls := 1 |})
  ∧ write 3 {| script := [([Byte.x41], Some EOF)] |} newResponse 2
    = Done (Some EOF, {| script := [] |}, newResponse)
  ∧ (∃ w, write 3 {| s_data := [Byte.x41]; s_off := 0 |} newResponse 2
          = Done (None, {| s_data := [Byte.x41]; s_off := 1 |}, w)
          ∧ rw_body w = [Byte.x41; Byte.x00]).
Proof.
  split; [reflexivity|]. split; [reflexivity|].
  eexists. split; reflexivity.
Qed.

End CopyExamples.

(** ** Upload, then download or delete *)

Section RoundTrip.

(** The upload of the example: [photo.png] with the two bytes [FF D8]
    and the content type [image/png]; the random part of the name is
    [123]. *)
Lemma Upload_photo :
  ∃ n' fs' w',
    Upload 3 pngStore.1 pngStore.2 newResponse photoRequest ("123", [])
    = Done (n', fs', w')
    ∧ rw_sent w' = Some (StatusOK, ∅)
    ∧ rw_body w' = list_byte_of_string "123.png"
    ∧ mimeCache n' = {[ "tmp/123.png" := ["image/png"] ]}
    ∧ fs' = <["tmp/123.png" := File ([Byte.xff; Byte.xd8] ++ replicate 254 Byte.x00)]>
              pngStore.2.
Proof.
  eexists _, _, _. split; [vm_compute; reflexivity|].
  repeat split; vm_compute; reflexivity.
Qed.

(** C1: the round trip on a payload shorter than the transfer buffer.
    The upload succeeds and returns the key [123.png]; the download of
    that key succeeds and streams 256 bytes, the two uploaded bytes and
    254 zero bytes, not the two bytes that were uploaded. *)
Theorem roundtrip_pads_last_chunk :
  ∃ n' fs' w1 w2 r2,
    Upload 3 pngStore.1 pngStore.2 newResponse photoRequest ("123", [])
    = Done (n', fs', w1)
    ∧ rw_body w1 = list_byte_of_string "123.png"
    ∧ Download 3 n' fs' newResponse (queryRequest "_file_" ["123.png"])
      = Done (w2, r2)
    ∧ rw_sent w2 = Some (StatusOK, ∅)
    ∧ rw_body w2 = [Byte.xff; Byte.xd8] ++ replicate 254 Byte.x00
    ∧ rw_body w2 ≠ [Byte.xff; Byte.xd8].
Proof.
  eexists _, _, _, _, _. split; [vm_compute; reflexivity|].
  split; [vm_compute; reflexivity|].
  split; [vm_compute; reflexivity|].
  split; [reflexivity|]. split; [vm_compute; reflexivity|].
  vm_compute. discriminate.
Qed.

(** C2: the content type of the upload does not come back.  [Upload]
    files it in the cache under the path of the file, [Download] looks
    under the key, finds nothing, and adds what it finds to the header of
    the request; the header that goes out with the response carries no
    content type. *)
Theorem download_loses_content_type :
  ∃ n' fs' w1 w2 r2,
    Upload 3 pngStore.1 pngStore.2 newResponse photoRequest ("123", [])
    = Done (n', fs', w1)
    ∧ rw_body w1 = list_byte_of_string "123.png"
    ∧ mimeCache n' !! "tmp/123.png" = Some ["image/png"]
    ∧ mimeCache n' !! "123.png" = None
    ∧ Download 3 n' fs' newResponse (queryRequest "_file_" ["123.png"])
      = Done (w2, r2)
    ∧ rw_sent w2 = Some (StatusOK, ∅)
    ∧ rw_header w2 !! "Content-Type" = None
    ∧ req_Header r2 !! "Content-Type" = None.
Proof.
  eexists _, _, _, _, _. split; [vm_compute; reflexivity|].
  split; [vm_compute; reflexivity|].
  split; [vm_compute; reflexivity|].
  split; [vm_compute; reflexivity|].
  split; [vm_compute; reflexivity|].
  repeat split; vm_compute; reflexivity.
Qed.

(** C4: the cache and the directory after an upload and after the delete
    of the returned key.  The cache entry is filed under [tmp/123.png],
    not under the key [123.png] that [Upload] returns; [Delete] succeeds,
    removes the file, and leaves that entry in the cache. *)
Theorem cache_entry_outlives_file :
  ∃ n' fs' w1,
    Upload 3 pngStore.1 pngStore.2 newResponse photoRequest ("123", [])
    = Done (n', fs', w1)
    ∧ rw_body w1 = list_byte_of_string "123.png"
    ∧ dom (mimeCache n') = {[ "tmp/123.png" ]}
    ∧ is_Some (fs' !! "tmp/123.png")
    ∧ ∃ n'' fs'',
        Delete n' fs' newResponse (queryRequest "_file_" ["123.png"])
        = (n'', fs'', newResponse)
        ∧ fs'' !! "tmp/123.png" = None
        ∧ fs'' = pngStore.2
        ∧ mimeCache n'' !! "tmp/123.png" = Some ["image/png"].
Proof.
  eexists _, _, _. split; [vm_compute; reflexivity|].
  split; [vm_compute; reflexivity|].
  split; [vm_compute; reflexivity|].
  split; [vm_compute; eauto|].
  eexists _, _. split; [vm_compute; reflexivity|].
  repeat split; vm_compute; reflexivity.
Qed.

End RoundTrip.

(** ** Copies of whole chunks *)

Section WholeChunks.

Lemma fill_length (buff data : list byte) : length (fill buff data) = length buff.
Proof.
  unfold fill. rewrite length_take, length_app, length_drop. lia.
Qed.

Lemma fill_full (buff data : list byte) :
  length data = length buff → fill buff data = data.
Proof.
  intros Hl. unfold fill. rewrite <- Hl. apply take_app_length.
Qed.

(** A response that a copy writes to keeps its header map, and its body
    grows by whole buffers. *)
Lemma write_loop_response {R : Type} `{Reader R} (fuel : nat) (f : R)
    (w : ResponseWriter) (buff : list byte) err f' w' :
  write_loop fuel f w buff = Done (err, f', w') →
  rw_header w' = rw_header w
  ∧ ∃ j : nat, length (rw_body w') = (length (rw_body w) + j * length buff)%nat.
Proof.
  revert f w buff. induction fuel as [|fuel IH]; intros f w buff; simpl; [done|].
  destruct (io_Read f (length buff)) as [[data e] f1].
  case_decide.
  - intros [= _ _ <-]. split; [done|]. exists 0%nat. lia.
  - destruct e as [e|].
    + intros [= _ _ <-]. split; [done|]. exists 0%nat. lia.
    + intros Hw. apply IH in Hw as [Hh [j Hj]]. split.
      * rewrite Hh. unfold WriteHeader. simpl. by destruct (rw_sent w).
      * exists (S j). rewrite Hj. rewrite fill_length. simpl.
        rewrite length_app, fill_length.
        unfold WriteHeader. destruct (rw_sent w); simpl; lia.
Qed.

(** Whatever [Download] answers without an error reply has the header map
    it was given and a body that grew by whole transfer buffers. *)
Lemma Download_whole_buffers {R : Type} (fuel : nat) (n : NimbusHTTPFormImpl)
    (fs : FS) (w w' : ResponseWriter) (r r' : Request R) :
  Download fuel n fs w r = Done (w', r') →
  (∃ w0 msg code, w' = http_Error w0 msg code)
  ∨ (rw_header w' = rw_header w
     ∧ ∃ j : nat,
         length (rw_body w')
         = (length (rw_body w) + j * Z.to_nat (tBuffSize n))%nat).
Proof.
  unfold Download.
  destruct (URL_Query r (dfk n)) as [|file0 rest].
  { intros [= <- _]. left. eauto. }
  destruct (os_Open fs (tmpFilePath n file0)) as [e|f].
  { intros [= <- _]. left. eauto. }
  destruct (write fuel f w (tBuffSize n)) as [[[err f'] w1]| |] eqn:Ew;
    cbn [mbind run_bind]; [|done|done].
  destruct err as [e|]; intros [= <- _]; [left; eauto|].
  right. unfold write in Ew. destruct (tBuffSize n <? 0); [done|].
  apply write_loop_response in Ew. by rewrite length_replicate in Ew.
Qed.

(** So no download on a fresh response returns a payload whose length is
    not a multiple of the transfer buffer size. *)
Lemma Download_never_short {R : Type} (fuel : nat) (n : NimbusHTTPFormImpl)
    (fs : FS) (w' : ResponseWriter) (r r' : Request R) (payload : list byte) :
  0 < tBuffSize n →
  (Z.of_nat (length payload) mod tBuffSize n ≠ 0)%Z →
  Download fuel n fs newResponse r = Done (w', r') →
  rw_header w' !! "Content-Type" = None →
  rw_body w' ≠ payload.
Proof.
  intros HB Hmod Hd Hct Hbody.
  apply Download_whole_buffers in Hd as [(w0 & msg & code & ->)|[_ [j Hj]]].
  - unfold http_Error, io_Write, ResponseWriter_Writer, WriteHeader, set_rw_header,
      Header_Set in Hct. simpl in Hct.
    destruct (rw_sent w0); simpl in Hct;
      rewrite lookup_insert_ne, lookup_insert_eq in Hct; done.
  - apply Hmod. rewrite <- Hbody, Hj. simpl.
    rewrite Nat2Z.inj_mul, Z2Nat.id by lia. apply Z_mod_mult.
Qed.

End WholeChunks.

Section WholeChunkCopies.

(** A payload made of whole chunks: every read fills the buffer, every
    write hands on what was read, and the copy ends with success. *)
Lemma write_loop_section_whole {W : Type} `{Writer W} (B : nat)
    (cs : list (list byte)) :
  (0 < B)%nat →
  Forall (fun c => length c = B) cs →
  ∀ (fuel : nat) (data : list byte) (off : nat) (w : W) (buff : list byte),
    length buff = B →
    drop off data = concat cs →
    (length cs < fuel)%nat →
    ∃ off', write_loop fuel {| s_data := data; s_off := off |} w buff
            = Done (None, {| s_data := data; s_off := off' |}, write_all w cs).
Proof.
  intros HB Hcs. induction Hcs as [|c cs Hc _ IH];
    intros fuel data off w buff Hbuff Hrest Hfuel.
  - destruct fuel as [|fuel]; [lia|]. exists off. simpl in Hrest.
    apply write_loop_clean_eof.
    unfold io_Read, sectionReader_Reader. simpl.
    assert (Hle : (length data <= off)%nat).
    { destruct (Nat.le_gt_cases (length data) off) as [?|Hlt]; [done|].
      apply (f_equal length) in Hrest. rewrite length_drop in Hrest.
      simpl in Hrest. lia. }
    apply Nat.leb_le in Hle. by rewrite Hle.
  - destruct fuel as [|fuel]; [simpl in Hfuel; lia|].
    simpl in Hrest.
    assert (Hgt : (length data <=? off)%nat = false).
    { apply Nat.leb_gt. apply (f_equal length) in Hrest.
      rewrite length_drop, length_app in Hrest. lia. }
    assert (Hchunk : take (length buff) (drop off data) = c).
    { rewrite Hrest, Hbuff, <- Hc. apply take_app_length. }
    rewrite (write_loop_step fuel _ {| s_data := data; s_off := (off + length c)%nat |}
               w buff c).
    + rewrite fill_full by lia. simpl.
      apply IH; [lia| |simpl in Hfuel; lia].
      rewrite <- drop_drop, Hrest. apply drop_app_length.
    + unfold io_Read, sectionReader_Reader. simpl. by rewrite Hgt, Hchunk.
Qed.

Lemma write_loop_file_whole {W : Type} `{Writer W} (B : nat)
    (cs : list (list byte)) :
  (0 < B)%nat →
  Forall (fun c => length c = B) cs →
  ∀ (fuel : nat) (path : string) (data : list byte) (off : nat) (w : W)
    (buff : list byte),
    length buff = B →
    drop off data = concat cs →
    (length cs < fuel)%nat →
    ∃ off', write_loop fuel {| f_name := path; f_node := File data; f_off := off |} w buff
            = Done (None, {| f_name := path; f_node := File data; f_off := off' |},
                    write_all w cs).
Proof.
  intros HB Hcs. induction Hcs as [|c cs Hc _ IH];
    intros fuel path data off w buff Hbuff Hrest Hfuel.
  - destruct fuel as [|fuel]; [lia|]. exists off. simpl in Hrest.
    apply write_loop_clean_eof.
    unfold io_Read, osFile_Reader. simpl.
    destruct (Nat.eqb_spec (length buff) 0) as [?|_]; [lia|].
    by rewrite Hrest, take_nil.
  - destruct fuel as [|fuel]; [simpl in Hfuel; lia|].
    simpl in Hrest.
    assert (Hchunk : take (length buff) (drop off data) = c).
    { rewrite Hrest, Hbuff, <- Hc. apply take_app_length. }
    assert (Hne : c ≠ []).
    { intros ->. simpl in Hc. lia. }
    rewrite (write_loop_step fuel _
               {| f_name := path; f_node := File data; f_off := (off + length c)%nat |}
               w buff c).
    + rewrite fill_full by lia. simpl.
      apply IH; [lia| |simpl in Hfuel; lia].
      rewrite <- drop_drop, Hrest. apply drop_app_length.
    + unfold io_Read, osFile_Reader. simpl.
      destruct (Nat.eqb_spec (length buff) 0) as [?|_]; [lia|].
      rewrite Hchunk. by destruct c.
Qed.

Lemma osFileW_write (fs : FS) (path : string) (data p : list byte) :
  fs !! path = Some (File data) →
  io_Write {| w_fs := fs; w_name := path |} p
  = (None, {| w_fs := <[path := File (data ++ p)]> fs; w_name := path |}).
Proof. intros Hf. cbv [io_Write osFileW_Writer w_fs w_name]. by rewrite Hf. Qed.

(** Writes to an open file append to it. *)
Lemma write_all_file (fs : FS) (path : string) (data : list byte)
    (cs : list (list byte)) :
  fs !! path = Some (File data) →
  write_all {| w_fs := fs; w_name := path |} cs
  = {| w_fs := <[path := File (data ++ concat cs)]> fs; w_name := path |}.
Proof.
  revert fs data. induction cs as [|c cs IH]; intros fs data Hf; simpl.
  - rewrite app_nil_r. by rewrite insert_id.
  - rewrite (osFileW_write fs path data c Hf). simpl.
    rewrite (IH _ (data ++ c)) by apply lookup_insert_eq.
    by rewrite insert_insert_eq, app_assoc.
Qed.

(** Writes to a response append to its body. *)
Lemma write_all_response (w : ResponseWriter) (cs : list (list byte)) :
  rw_body (write_all w cs) = rw_body w ++ concat cs
  ∧ rw_header (write_all w cs) = rw_header w.
Proof.
  revert w. induction cs as [|c cs IH]; intros w; cbn [write_all concat].
  - by rewrite app_nil_r.
  - destruct (IH (snd (io_Write w c))) as [-> ->].
    unfold io_Write, ResponseWriter_Writer, WriteHeader. simpl.
    destruct (rw_sent w); simpl; by rewrite app_assoc.
Qed.

End WholeChunkCopies.

Section WholeChunkRoundTrip.
Import Path.

Lemma append_assoc (s t u : string) : (s +:+ t) +:+ u = s +:+ t +:+ u.
Proof.
  induction s as [|c s IH]; [done|].
  change (String c ((s +:+ t) +:+ u) = String c (s +:+ t +:+ u)). by rewrite IH.
Qed.

Lemma slash_free_app (s t : string) :
  slash_free s → slash_free t → slash_free (s +:+ t).
Proof.
  unfold slash_free. rewrite list_ascii_of_string_app. apply Forall_app_2.
Qed.

Lemma slash_free_of_list (l : list ascii) :
  Forall (fun c => is_slash c = false) l → slash_free (string_of_list_ascii l).
Proof. unfold slash_free. by rewrite list_ascii_of_string_of_list_ascii. Qed.

Lemma ext_scan_slash_free (r acc : list ascii) :
  Forall (fun c => is_slash c = false) acc →
  Forall (fun c => is_slash c = false) (ext_scan r acc).
Proof.
  revert acc. induction r as [|c r IH]; intros acc Hacc; simpl; [constructor|].
  destruct (is_slash c) eqn:Hc; [constructor|].
  destruct (is_dot c); [by constructor|].
  apply IH. by constructor.
Qed.

(** [filepath.Ext] never has a separator in it. *)
Lemma Ext_slash_free (p : string) : slash_free (Ext p).
Proof. apply slash_free_of_list, ext_scan_slash_free. constructor. Qed.

Lemma split_last_star_parts (r acc p s : list ascii) :
  split_last_star r acc = Some (p, s) →
  Forall (fun c => is_slash c = false) r →
  Forall (fun c => is_slash c = false) acc →
  Forall (fun c => is_slash c = false) p ∧ Forall (fun c => is_slash c = false) s.
Proof.
  revert acc. induction r as [|c r IH]; intros acc; simpl; [done|].
  intros Hsp Hr Hacc. inversion Hr as [|? ? Hc Hr']; subst.
  destruct (is_star c).
  - by inversion Hsp; subst.
  - apply (IH (c :: acc)); [done|done|by constructor].
Qed.

Lemma prefixAndSuffix_slash_free (pattern : string) :
  slash_free pattern →
  slash_free (prefixAndSuffix pattern).1 ∧ slash_free (prefixAndSuffix pattern).2.
Proof.
  intros Hp. unfold prefixAndSuffix.
  destruct (split_last_star (rev (list_ascii_of_string pattern)) []) as [[p s]|] eqn:Es.
  - apply split_last_star_parts in Es as [Hpre Hsuf].
    + simpl. split; apply slash_free_of_list; [|done].
      apply Forall_forall. intros c Hc. rewrite Forall_forall in Hpre.
      apply Hpre. apply list_elem_of_In, in_rev.
      by apply list_elem_of_In.
    + apply Forall_forall. intros c Hc. unfold slash_free in Hp.
      rewrite Forall_forall in Hp. apply Hp.
      apply list_elem_of_In, in_rev. by apply list_elem_of_In.
    + constructor.
  - simpl. split; [done|constructor].
Qed.

Lemma append_nonempty_l (s t : string) : s ≠ EmptyString → s +:+ t ≠ EmptyString.
Proof. destruct s; [done|]. intros _. discriminate. Qed.

Lemma last_element_all (e : list ascii) :
  Forall (fun c => is_slash c = false) e → last_element e = e.
Proof. induction 1 as [|c e Hc _ IH]; simpl; [done|]. by rewrite Hc, IH. Qed.

(** [path.Base] of a proper file name is the name. *)
Lemma Base_name (b : string) : b ≠ EmptyString → slash_free b → Base b = b.
Proof.
  intros Hne Hsf. unfold Base.
  destruct (String.eqb_spec b EmptyString) as [E|_]; [done|].
  assert (Hr : Forall (fun c => is_slash c = false) (rev (list_ascii_of_string b))).
  { apply Forall_forall. intros c Hc. unfold slash_free in Hsf.
    rewrite Forall_forall in Hsf. apply Hsf.
    apply list_elem_of_In, in_rev. by apply list_elem_of_In. }
  destruct (rev (list_ascii_of_string b)) as [|c r] eqn:Er.
  { exfalso. apply Hne. apply (f_equal (@rev ascii)) in Er.
    rewrite rev_involutive in Er. simpl in Er.
    rewrite <- (string_of_list_ascii_of_string b). by rewrite Er. }
  inversion Hr as [|? ? Hc Hr']; subst.
  rewrite strip_slashes_name by done.
  rewrite last_element_all by done.
  rewrite <- Er, rev_involutive. apply string_of_list_ascii_of_string.
Qed.

(** The round trip where it holds: a payload made of whole transfer
    buffers is stored as it is and comes back as it was uploaded.  The
    upload files the content type in the cache under the path of the new
    file and answers with the base name of that path. *)
Lemma roundtrip_whole_chunks (n : NimbusHTTPFormImpl) (fs : FS)
    (filename : string) (types : list string) (rnd : string)
    (cs : list (list byte)) (B fuel : nat) :
  tBuffSize n = Z.of_nat B → (0 < B)%nat →
  Forall (fun c => length c = B) cs → (length cs < fuel)%nat →
  tmpDir n ≠ EmptyString → fs !! tmpDir n = Some Dir →
  isExtAllowed n (Ext filename) = None →
  rnd ≠ EmptyString → slash_free rnd →
  let base := (prefixAndSuffix ("*" +:+ Ext filename)).1 +:+ rnd
              +:+ (prefixAndSuffix ("*" +:+ Ext filename)).2 in
  fs !! (tmpDir n +:+ "/" +:+ base) = None →
  let path := tmpDir n +:+ "/" +:+ base in
  let n' := set_mimeCache n (<[path := types]> (mimeCache n)) in
  let fs' := <[path := File (concat cs)]> fs in
  Upload fuel n fs newResponse
    (formRequest (dfk n) filename types (concat cs)) (rnd, [])
  = Done (n', fs', snd (io_Write newResponse (list_byte_of_string base)))
  ∧ ∃ w2 r2,
      Download fuel n' fs' newResponse (queryRequest (dfk n) [base]) = Done (w2, r2)
      ∧ rw_body w2 = concat cs.
Proof.
  intros HB HB0 Hcs Hfuel Hdir Hfs Hext Hrnd Hsf base Hfresh path0 n' fs'.
  subst path0 n' fs'.
  assert (Hpat : slash_free ("*" +:+ Ext filename)).
  { apply slash_free_app; [by repeat constructor|apply Ext_slash_free]. }
  destruct (prefixAndSuffix_slash_free _ Hpat) as [Hpre Hsuf].
  assert (Hbase_sf : slash_free base).
  { unfold base. by repeat apply slash_free_app. }
  assert (Hbase_ne : base ≠ EmptyString).
  { unfold base. by apply append_nonempty, append_nonempty_l. }
  set (path := tmpDir n +:+ "/" +:+ base).
  assert (Hup : downloadFromRequest fuel n fs
                  (formRequest (dfk n) filename types (concat cs)) (dfk n) (rnd, [])
                = Done (<[path := File (concat cs)]> fs,
                        inr {| name := path; contentType := types |})).
  { unfold downloadFromRequest, formRequest. cbn [FormFile].
    rewrite String.eqb_refl. cbn [Filename MIMEHeader]. rewrite Hext.
    unfold TempFile.
    destruct (String.eqb_spec (tmpDir n) EmptyString) as [?|_]; [done|].
    fold base in Hfresh. unfold base in *. clear base.
    destruct (prefixAndSuffix ("*" +:+ Ext filename)) as [p s]. cbn [fst snd] in *.
    rewrite Hfs. unfold TempFile_try. cbn [fst snd].
    replace ((tmpDir n +:+ "/" +:+ p) +:+ rnd +:+ s) with path
      by (unfold path; by rewrite !append_assoc).
    unfold path at 1. rewrite Hfresh. fold path.
    unfold write. rewrite HB.
    destruct (Z.ltb_spec (Z.of_nat B) 0) as [?|_]; [lia|].
    rewrite Nat2Z.id.
    destruct (write_loop_section_whole (W := osFileW) B cs HB0 Hcs fuel (concat cs) 0
                {| w_fs := <[path := File []]> fs; w_name := path |}
                (replicate B Byte.x00)) as [off' ->];
      [apply length_replicate|done|done|].
    cbn [mbind run_bind].
    rewrite (write_all_file _ path []) by apply lookup_insert_eq.
    cbn [w_fs app]. rewrite insert_insert_eq.
    by rewrite lookup_singleton_eq. }
  assert (Hkey : Base path = base) by (by apply Base_join).
  destruct (write_loop_file_whole (W := ResponseWriter) B cs HB0 Hcs fuel path
              (concat cs) 0 newResponse (replicate B Byte.x00))
    as [off' Hdown]; [apply length_replicate|done|done|].
  split; [|eexists (write_all newResponse cs), _; split].
  - unfold Upload, formRequest at 1. cbn [ParseMultipartForm].
    fold (formRequest (dfk n) filename types (concat cs)).
    rewrite Hup. cbn [mbind run_bind name contentType]. by rewrite Hkey.
  - unfold Download, queryRequest at 1. cbn [URL_Query dfk set_mimeCache].
    rewrite String.eqb_refl. unfold tmpFilePath. cbn [tmpDir set_mimeCache].
    rewrite (Base_name base) by done. fold path.
    unfold os_Open. rewrite lookup_insert_eq.
    unfold write. cbn [tBuffSize set_mimeCache]. rewrite HB.
    destruct (Z.ltb_spec (Z.of_nat B) 0) as [?|_]; [lia|].
    rewrite Nat2Z.id, Hdown. cbn [mbind run_bind]. reflexivity.
  - destruct (write_all_response newResponse cs) as [-> _]. done.
Qed.

End WholeChunkRoundTrip.

Section WholeChunkExample.

(** One full buffer of 256 bytes comes back as it went in. *)
Example roundtrip_one_buffer :
  let n' := set_mimeCache pngStore.1 {[ "tmp/123.png" := ["image/png"] ]} in
  let fs' := <["tmp/123.png" := File (replicate 256 Byte.x41)]> pngStore.2 in
  Upload 3 pngStore.1 pngStore.2 newResponse
    (formRequest "_file_" "photo.png" ["image/png"] (replicate 256 Byte.x41))
    ("123", [])
  = Done (n', fs', snd (io_Write newResponse (list_byte_of_string "123.png")))
  ∧ ∃ w2 r2,
      Download 3 n' fs' newResponse (queryRequest "_file_" ["123.png"]) = Done (w2, r2)
      ∧ rw_body w2 = replicate 256 Byte.x41.
Proof.
  pose proof (roundtrip_whole_chunks pngStore.1 pngStore.2 "photo.png" ["image/png"]
                "123" [replicate 256 Byte.x41] 256 3) as Hrt.
  cbn [concat] in Hrt. rewrite app_nil_r in Hrt.
  apply Hrt; try reflexivity; try lia; try done.
  - constructor; [apply length_replicate|constructor].
  - simpl. lia.
  - unfold Path.slash_free. simpl. by repeat constructor.
Qed.

End WholeChunkExample.

(** * Further properties of the code *)

(** ** The copy and its writer *)

Section CopyOutcome.
Context {R W1 W2 : Type} `{Reader R} `{HW1 : Writer W1} `{HW2 : Writer W2}.

Lemma write_loop_ignores_writer (fuel : nat) (f : R) (w1 : W1) (w2 : W2)
    (buff : list byte) :
  match write_loop fuel f w1 buff, write_loop fuel f w2 buff with
  | Done (e1, f1, _), Done (e2, f2, _) => e1 = e2 ∧ f1 = f2
  | OutOfFuel, OutOfFuel => True
  | _, _ => False
  end.
Proof.
  revert f w1 w2 buff. induction fuel as [|fuel IH]; intros f w1 w2 buff;
    cbn [write_loop]; [done|].
  destruct (io_Read f (length buff)) as [[data e] f'].
  case_decide; [done|].
  destruct e as [e|]; [done|].
  destruct (io_Write w1 (fill buff data)) as [e1 w1'].
  destruct (io_Write w2 (fill buff data)) as [e2 w2'].
  apply IH.
Qed.

(** The outcome of [write] does not depend on the writer: whatever the
    writes did, and whatever writer took them, the copy ends with the same
    error (or none) and leaves the reader at the same place; it panics or
    keeps running for one writer exactly when it does for the other. *)
Theorem write_outcome_ignores_writer (fuel : nat) (f : R) (w1 : W1) (w2 : W2)
    (buffSize : Z) :
  match write fuel f w1 buffSize, write fuel f w2 buffSize with
  | Done (e1, f1, _), Done (e2, f2, _) => e1 = e2 ∧ f1 = f2
  | Panic m1, Panic m2 => m1 = m2
  | OutOfFuel, OutOfFuel => True
  | _, _ => False
  end.
Proof.
  unfold write. destruct (buffSize <? 0); [done|].
  pose proof (write_loop_ignores_writer fuel f w1 w2
                (replicate (Z.to_nat buffSize) Byte.x00)) as Hl.
  destruct (write_loop fuel f w1 _) as [[[e1 f1] w1']| |];
    destruct (write_loop fuel f w2 _) as [[[e2 f2] w2']| |]; done.
Qed.

End CopyOutcome.

(** ** A transfer buffer of no bytes *)

Section ZeroBuffer.

Lemma write_loop_file_empty_buffer {W : Type} `{Writer W} (fuel : nat)
    (path : string) (data : list byte) (off : nat) (w : W) :
  write_loop fuel {| f_name := path; f_node := File data; f_off := off |} w []
  = OutOfFuel.
Proof.
  revert w. induction fuel as [|fuel IH]; intros w; [done|].
  rewrite (write_loop_step fuel _
             {| f_name := path; f_node := File data; f_off := off |} w [] [])
    by reflexivity.
  apply IH.
Qed.

(** With a transfer buffer size of 0 the download of a stored regular file
    never returns: every read of the empty buffer reads nothing and reports
    no error, so the loop of [write] has no way out, whatever the fuel. *)
Theorem Download_zero_buffer_never_returns {R : Type} (fuel : nat)
    (n : NimbusHTTPFormImpl) (fs : FS) (w : ResponseWriter) (r : Request R)
    (key : string) (rest : list string) (data : list byte) :
  tBuffSize n = 0 →
  URL_Query r (dfk n) = key :: rest →
  fs !! tmpFilePath n key = Some (File data) →
  Download fuel n fs w r = OutOfFuel.
Proof.
  intros HB Hq Hf. unfold Download, os_Open, write. rewrite Hq, Hf, HB.
  cbn [Z.ltb Z.compare Z.to_nat replicate].
  by rewrite write_loop_file_empty_buffer.
Qed.

Lemma Download_zero_buffer_never_returns_witness :
  Download 1000
    (fst (NewHTTPFormImpl "_file_" Mb10 0 "tmp" [".png"] false ∅))
    (<["tmp/1.png" := File [Byte.x41]]> pngStore.2)
    newResponse (queryRequest "_file_" ["1.png"])
  = OutOfFuel.
Proof.
  apply (Download_zero_buffer_never_returns 1000
           (fst (NewHTTPFormImpl "_file_" Mb10 0 "tmp" [".png"] false ∅))
           (<["tmp/1.png" := File [Byte.x41]]> pngStore.2)
           newResponse (queryRequest "_file_" ["1.png"]) "1.png" [] [Byte.x41]);
    reflexivity.
Defined.

End ZeroBuffer.

(** ** What a copy writes for a payload *)

Section Padding.

Lemma padded_chunks_nil (k : nat) (buff : list byte) : padded_chunks k buff [] = [].
Proof. by destruct k. Qed.

Lemma padded_chunks_fuel (k1 k2 : nat) (buff rest : list byte) :
  (0 < length buff)%nat → (length rest ≤ k1)%nat → (length rest ≤ k2)%nat →
  padded_chunks k1 buff rest = padded_chunks k2 buff rest.
Proof.
  revert k2 buff rest. induction k1 as [|k1 IH]; intros k2 buff rest HB H1 H2.
  - destruct rest; [by rewrite !padded_chunks_nil|simpl in H1; lia].
  - destruct rest as [|b rest]; [by rewrite !padded_chunks_nil|].
    destruct k2 as [|k2]; [simpl in H2; lia|].
    cbn [padded_chunks]. f_equal.
    assert (Hd : (length (drop (length buff) (b :: rest)) ≤ length rest)%nat).
    { rewrite length_drop. cbn [length]. lia. }
    apply IH; [by rewrite fill_length|simpl in H1; lia|simpl in H2; lia].
Qed.

Lemma padded_chunks_whole (k : nat) (buff rest : list byte) :
  Forall (fun c => length c = length buff) (padded_chunks k buff rest).
Proof.
  revert buff rest. induction k as [|k IH]; intros buff rest; [constructor|].
  destruct rest as [|b rest]; [constructor|]. cbn [padded_chunks].
  constructor; [apply fill_length|].
  eapply Forall_impl; [apply IH|].
  intros c Hc. simpl in Hc. by rewrite Hc, fill_length.
Qed.

Lemma padded_chunks_count (k : nat) (buff rest : list byte) :
  (0 < length buff)%nat →
  (length (padded_chunks k buff rest) ≤ length rest)%nat.
Proof.
  intros HB. revert buff rest HB. induction k as [|k IH]; intros buff rest HB;
    [simpl; lia|].
  destruct rest as [|b rest]; [simpl; lia|]. cbn [padded_chunks length].
  specialize (IH (fill buff (take (length buff) (b :: rest)))
                 (drop (length buff) (b :: rest))).
  rewrite fill_length, length_drop in IH. specialize (IH HB).
  cbn [length] in *. lia.
Qed.

(** The payload is the front of what is written. *)
Lemma padded_prefix (k : nat) (buff rest : list byte) :
  (0 < length buff)%nat → (length rest ≤ k)%nat →
  take (length rest) (concat (padded_chunks k buff rest)) = rest.
Proof.
  revert buff rest. induction k as [|k IH]; intros buff rest HB Hk.
  - destruct rest; [done|simpl in Hk; lia].
  - destruct rest as [|b rest]; [done|]. cbn [padded_chunks concat].
    set (l := b :: rest) in *.
    destruct (Nat.le_gt_cases (length buff) (length l)) as [Hle|Hlt].
    + rewrite fill_full by (rewrite length_take; lia).
      rewrite <- (take_drop (length buff) l) at 1.
      rewrite length_app, take_app_add.
      rewrite IH; [apply take_drop|rewrite length_take; lia|].
      rewrite length_drop. unfold l in *. cbn [length] in *. lia.
    + rewrite (take_ge l (length buff)) by lia.
      rewrite (drop_ge l (length buff)) by lia.
      rewrite padded_chunks_nil, app_nil_r.
      unfold fill. rewrite take_take, Nat.min_l by lia.
      apply take_app_length.
Qed.

(** What is written is a whole number of buffers, the least that holds the
    payload. *)
Lemma padded_length (k : nat) (buff rest : list byte) :
  (0 < length buff)%nat → (length rest ≤ k)%nat →
  (∃ j : nat, length (concat (padded_chunks k buff rest)) = (j * length buff)%nat)
  ∧ (length rest ≤ length (concat (padded_chunks k buff rest)))%nat
  ∧ (length (concat (padded_chunks k buff rest)) < length rest + length buff)%nat.
Proof.
  revert buff rest. induction k as [|k IH]; intros buff rest HB Hk.
  - destruct rest; [|simpl in Hk; lia]. simpl. split; [by exists 0%nat|lia].
  - destruct rest as [|b rest].
    { simpl. split; [by exists 0%nat|lia]. }
    cbn [padded_chunks concat]. set (l := b :: rest) in *.
    rewrite length_app, fill_length.
    destruct (IH (fill buff (take (length buff) l)) (drop (length buff) l))
      as ([j Hj] & Hlo & Hhi).
    { by rewrite fill_length. }
    { rewrite length_drop. unfold l in *. cbn [length] in *. lia. }
    rewrite fill_length in Hj, Hhi. rewrite length_drop in Hlo, Hhi.
    split; [exists (S j); lia|].
    destruct (Nat.le_gt_cases (length buff) (length l)) as [Hle|Hlt]; [lia|].
    rewrite (drop_ge l (length buff)), padded_chunks_nil by lia.
    unfold l in *. cbn [concat length] in *. lia.
Qed.

Lemma stored_prefix (B : nat) (payload : list byte) :
  (0 < B)%nat → take (length payload) (stored B payload) = payload.
Proof.
  intros HB. apply padded_prefix; [by rewrite length_replicate|done].
Qed.

Lemma stored_length (B : nat) (payload : list byte) :
  (0 < B)%nat →
  (∃ j : nat, length (stored B payload) = (j * B)%nat)
  ∧ (length payload ≤ length (stored B payload))%nat
  ∧ (length (stored B payload) < length payload + B)%nat.
Proof.
  intros HB.
  pose proof (padded_length (length payload) (replicate B Byte.x00) payload) as Hp.
  rewrite length_replicate in Hp. by apply Hp.
Qed.

(** A payload of whole buffers is stored as it is. *)
Lemma stored_whole (B j : nat) (payload : list byte) :
  (0 < B)%nat → length payload = (j * B)%nat → stored B payload = payload.
Proof.
  intros HB Hlen.
  destruct (stored_length B payload HB) as ([i Hi] & Hlo & Hhi).
  rewrite <- (stored_prefix B payload HB) at 2.
  symmetry. apply take_ge.
  assert (i = j) by nia. subst. lia.
Qed.

End Padding.

Section PaddedCopies.

(** The copy from a multipart file held in memory: it ends with success
    and has written the padded chunks of what was left to read. *)
Lemma write_loop_section_any {W : Type} `{Writer W} (fuel : nat) :
  ∀ (data : list byte) (off : nat) (w : W) (buff : list byte),
    (0 < length buff)%nat →
    (length (drop off data) < fuel)%nat →
    ∃ off', write_loop fuel {| s_data := data; s_off := off |} w buff
            = Done (None, {| s_data := data; s_off := off' |},
                    write_all w (padded_chunks (length (drop off data)) buff
                                   (drop off data))).
Proof.
  induction fuel as [|fuel IH]; intros data off w buff HB Hfuel; [lia|].
  destruct (drop off data) as [|b rest] eqn:Hrest.
  - exists off. apply write_loop_clean_eof.
    unfold io_Read, sectionReader_Reader. cbn [s_data s_off].
    assert (Hle : (length data <= off)%nat).
    { destruct (Nat.le_gt_cases (length data) off) as [?|Hlt]; [done|].
      apply (f_equal length) in Hrest. rewrite length_drop in Hrest.
      cbn [length] in Hrest. lia. }
    apply Nat.leb_le in Hle. by rewrite Hle.
  - assert (Hgt : (length data <=? off)%nat = false).
    { apply Nat.leb_gt. apply (f_equal length) in Hrest.
      rewrite length_drop in Hrest. cbn [length] in Hrest. lia. }
    set (l := b :: rest) in *.
    set (chunk := take (length buff) l).
    rewrite (write_loop_step fuel _
               {| s_data := data; s_off := (off + length chunk)%nat |} w buff chunk).
    2:{ unfold io_Read, sectionReader_Reader. cbn [s_data s_off].
        by rewrite Hgt, Hrest. }
    assert (Hdrop : drop (off + length chunk) data = drop (length buff) l).
    { rewrite <- drop_drop, Hrest. unfold chunk. rewrite length_take.
      destruct (Nat.le_gt_cases (length buff) (length l)) as [Hle|Hlt].
      - by rewrite Nat.min_l by lia.
      - rewrite Nat.min_r by lia. by rewrite !drop_ge by lia. }
    destruct (IH data (off + length chunk)%nat (snd (io_Write w (fill buff chunk)))
                (fill buff chunk)) as [off' Hw].
    { by rewrite fill_length. }
    { rewrite Hdrop, length_drop. unfold l in *. cbn [length] in *. lia. }
    exists off'. rewrite Hw, Hdrop. do 2 f_equal.
    unfold l at 3 4. cbn [length padded_chunks write_all]. fold l. fold chunk.
    f_equal. apply padded_chunks_fuel.
    + by rewrite fill_length.
    + done.
    + rewrite length_drop. unfold l. cbn [length]. lia.
Qed.

(** With a buffer that is not empty, an open regular file reads as the
    in-memory file with the same bytes does. *)
Lemma file_reads_like_section (path : string) (data : list byte) (off len : nat) :
  (0 < len)%nat →
  io_Read {| f_name := path; f_node := File data; f_off := off |} len
  = (fst (io_Read {| s_data := data; s_off := off |} len),
     {| f_name := path; f_node := File data;
        f_off := s_off (snd (io_Read {| s_data := data; s_off := off |} len)) |}).
Proof.
  intros Hlen. unfold io_Read, osFile_Reader, sectionReader_Reader.
  cbn [f_node f_name f_off s_data s_off].
  destruct (Nat.eqb_spec len 0) as [?|_]; [lia|].
  destruct (Nat.leb_spec (length data) off) as [Hle|Hlt].
  - by rewrite drop_ge, take_nil by lia.
  - destruct (take len (drop off data)) as [|b chunk] eqn:Ht; [|done].
    exfalso. apply (f_equal length) in Ht.
    rewrite length_take, length_drop in Ht. cbn [length] in Ht. lia.
Qed.

Lemma write_loop_file_like_section {W : Type} `{Writer W} (fuel : nat)
    (path : string) (data : list byte) :
  ∀ (off : nat) (w : W) (buff : list byte),
    (0 < length buff)%nat →
    write_loop fuel {| f_name := path; f_node := File data; f_off := off |} w buff
    = match write_loop fuel {| s_data := data; s_off := off |} w buff with
      | Done (e, s, w') =>
          Done (e, {| f_name := path; f_node := File data; f_off := s_off s |}, w')
      | Panic msg => Panic msg
      | OutOfFuel => OutOfFuel
      end.
Proof.
  induction fuel as [|fuel IH]; intros off w buff HB; [done|].
  cbn [write_loop]. rewrite (file_reads_like_section path data off _ HB).
  destruct (io_Read {| s_data := data; s_off := off |} (length buff))
    as [[chunk e] s] eqn:Hr.
  cbn [fst snd]. case_decide; [done|].
  destruct e as [e|]; [done|].
  destruct (io_Write w (fill buff chunk)) as [e' w'].
  assert (Hs : s_data s = data).
  { revert Hr. unfold io_Read, sectionReader_Reader. cbn [s_data s_off].
    destruct (length data <=? off)%nat; by intros [= _ <-]. }
  destruct s as [d o]. cbn [s_data s_off] in *. subst d.
  apply IH. by rewrite fill_length.
Qed.

Lemma write_all_response_sent (w : ResponseWriter) (cs : list (list byte)) :
  cs ≠ [] → rw_sent w = None →
  rw_sent (write_all w cs) = Some (StatusOK, rw_header w).
Proof.
  intros Hne Hw. destruct cs as [|c cs]; [done|]. clear Hne.
  cbn [write_all].
  assert (Hs : rw_sent (snd (io_Write w c)) = Some (StatusOK, rw_header w)).
  { unfold io_Write, ResponseWriter_Writer, WriteHeader. cbn. by rewrite Hw. }
  revert Hs. generalize (snd (io_Write w c)). clear Hw c.
  induction cs as [|c cs IH]; intros w' Hs; [done|].
  cbn [write_all]. apply IH.
  unfold io_Write, ResponseWriter_Writer, WriteHeader. cbn. by rewrite Hs.
Qed.

End PaddedCopies.

(** ** Upload and download of any payload *)

Section PaddedHandlers.
Import Path.

(** The copy from a stored regular file, with a buffer of [B > 0] bytes. *)
Lemma write_file_padded {W : Type} `{Writer W} (fuel B : nat) (path : string)
    (data : list byte) (w : W) :
  (0 < B)%nat → (length data < fuel)%nat →
  ∃ off', write fuel {| f_name := path; f_node := File data; f_off := 0 |} w
            (Z.of_nat B)
          = Done (None, {| f_name := path; f_node := File data; f_off := off' |},
                  write_all w (padded_chunks (length data) (replicate B Byte.x00) data)).
Proof.
  intros HB Hfuel. unfold write.
  destruct (Z.ltb_spec (Z.of_nat B) 0) as [?|_]; [lia|]. rewrite Nat2Z.id.
  rewrite write_loop_file_like_section by (rewrite length_replicate; lia).
  destruct (write_loop_section_any fuel data 0 w (replicate B Byte.x00))
    as [off' ->]; [rewrite length_replicate; lia|done|].
  by exists off'.
Qed.

Lemma write_all_file_keeps (fs : FS) (path : string) (cs : list (list byte)) :
  fs !! path = None →
  write_all {| w_fs := <[path := File []]> fs; w_name := path |} cs
  = {| w_fs := <[path := File (concat cs)]> fs; w_name := path |}.
Proof.
  intros _. rewrite (write_all_file _ path []) by apply lookup_insert_eq.
  by rewrite insert_insert_eq.
Qed.

(** The first half of an upload: the new file holds what the copy wrote. *)
Lemma downloadFromRequest_stores (n : NimbusHTTPFormImpl) (fs : FS)
    (r : Request sectionReader) (hdr : FileHeader) (payload : list byte)
    (rnd : string) (rnds : list string) (B fuel : nat) :
  tBuffSize n = Z.of_nat B → (0 < B)%nat → (length payload < fuel)%nat →
  FormFile r (dfk n) = Some ({| s_data := payload; s_off := 0 |}, hdr) →
  isExtAllowed n (Ext (Filename hdr)) = None →
  tmpDir n ≠ EmptyString → fs !! tmpDir n = Some Dir →
  fs !! (tmpDir n +:+ "/" +:+ (prefixAndSuffix ("*" +:+ Ext (Filename hdr))).1
         +:+ rnd +:+ (prefixAndSuffix ("*" +:+ Ext (Filename hdr))).2) = None →
  downloadFromRequest fuel n fs r (dfk n) (rnd, rnds)
  = Done (<[tmpDir n +:+ "/" +:+ (prefixAndSuffix ("*" +:+ Ext (Filename hdr))).1
            +:+ rnd +:+ (prefixAndSuffix ("*" +:+ Ext (Filename hdr))).2
            := File (stored B payload)]> fs,
          inr {| name := tmpDir n +:+ "/"
                         +:+ (prefixAndSuffix ("*" +:+ Ext (Filename hdr))).1
                         +:+ rnd +:+ (prefixAndSuffix ("*" +:+ Ext (Filename hdr))).2;
                 contentType := default [] (MIMEHeader hdr !! "Content-Type") |}).
Proof.
  intros HB HB0 Hfuel Hform Hext Hdir Hfs Hfresh.
  unfold downloadFromRequest. rewrite Hform, Hext. unfold TempFile.
  destruct (String.eqb_spec (tmpDir n) EmptyString) as [?|_]; [done|].
  destruct (prefixAndSuffix ("*" +:+ Ext (Filename hdr))) as [p s].
  cbn [fst snd] in *. rewrite Hfs.
  set (path := tmpDir n +:+ "/" +:+ p +:+ rnd +:+ s) in *.
  assert (Hname : (tmpDir n +:+ "/" +:+ p) +:+ rnd +:+ s = path)
    by (unfold path; by rewrite !append_assoc).
  destruct rnds as [|rnd' rnds]; cbn [TempFile_try]; rewrite Hname, Hfresh.
  all: unfold write; rewrite HB;
    destruct (Z.ltb_spec (Z.of_nat B) 0) as [?|_]; [lia|]; rewrite Nat2Z.id;
    destruct (write_loop_section_any fuel payload 0
                {| w_fs := <[path := File []]> fs; w_name := path |}
                (replicate B Byte.x00)) as [off' ->];
      [rewrite length_replicate; lia|done|];
    cbn [mbind run_bind drop];
    rewrite (write_all_file_keeps fs path _ Hfresh); done.
Qed.

Lemma string_length_app (s t : string) :
  String.length (s +:+ t) = (String.length s + String.length t)%nat.
Proof.
  induction s as [|c s IH]; [done|].
  change (S (String.length (s +:+ t)) = S (String.length s + String.length t)).
  by rewrite IH.
Qed.

(** The path of a file is never its own base name. *)
Lemma join_differs (d b : string) : d +:+ "/" +:+ b ≠ b.
Proof.
  intros E. apply (f_equal String.length) in E.
  rewrite !string_length_app in E. cbn [String.length] in E. lia.
Qed.

End PaddedHandlers.

(** ** Download by key *)

Section DownloadByKey.
Import Path.

(** C6 (as amended).  For every requested key whose last path element is
    a file name (the key has a character other than the separator, and
    its last element is not [.] or [..]), [Download] resolves the key to
    the backing directory joined with that last element ([path.Base]), a
    name that is not empty and has no separator in it, so to a path
    directly inside the backing directory.  A key with directory
    separators or [..] segments in front of its last element is not
    rejected: on a fresh response, [Download] answers with the cannot-open
    reply exactly when nothing is stored at the resolved path, and when a
    regular file is stored there it opens and streams that file, with
    status 200: the body begins with the bytes of the file, and is the
    file itself when its length is a multiple of the transfer buffer. *)
Theorem Download_resolves_last_element {R : Type} (fuel : nat)
    (n : NimbusHTTPFormImpl) (fs : FS) (w : ResponseWriter) (r : Request R)
    (key : string) (rest : list string) :
  URL_Query r (dfk n) = key :: rest →
  rw_sent w = None →
  has_name key → Base key ≠ "."%string → Base key ≠ ".."%string →
  tmpFilePath n key = tmpDir n +:+ "/" +:+ Base key
  ∧ Base key ≠ EmptyString
  ∧ slash_free (Base key)
  ∧ (Download fuel n fs w r
     = Done (http_Error w ("cannot open: " +:+ Base (tmpFilePath n key))
               StatusBadRequest, r)
     ↔ fs !! tmpFilePath n key = None)
  ∧ (∀ (data : list byte) (B : nat),
        fs !! tmpFilePath n key = Some (File data) →
        tBuffSize n = Z.of_nat B → (0 < B)%nat → (length data < fuel)%nat →
        ∃ w',
          Download fuel n fs w r
          = Done (w', set_req_Header r
                        (fold_left (fun h t => Header_Add h "Content-Type" t)
                                   (default [] (mimeCache n !! key)) (req_Header r)))
          ∧ rw_body w' = rw_body w ++ stored B data
          ∧ take (length data) (stored B data) = data
          ∧ ((∃ j : nat, length data = (j * B)%nat) → rw_body w' = rw_body w ++ data)
          ∧ rw_header w' = rw_header w
          ∧ (data ≠ [] → rw_sent w' = Some (StatusOK, rw_header w))).
Proof.
  intros Hq Hw Hk _ _. split; [reflexivity|].
  split; [apply Base_nonempty|]. split; [by apply Base_slash_free|]. split.
  - split.
    + intros Hd. destruct (fs !! tmpFilePath n key) as [nd|] eqn:Hf; [|done].
      exfalso.
      apply (Download_present_not_absent fuel n fs w r key rest Hq Hw);
        [by rewrite Hf|exact Hd].
    + apply (Download_absent fuel n fs w r key rest Hq).
  - intros data B Hf HB HB0 Hfuel.
    destruct (write_file_padded fuel B (tmpFilePath n key) data w HB0 Hfuel)
      as [off' Hwr].
    destruct (write_all_response w
                (padded_chunks (length data) (replicate B Byte.x00) data))
      as [Hbody Hhdr].
    eexists. split; [|split; [|split; [|split; [|split]]]].
    + unfold Download, os_Open. rewrite Hq, Hf, HB, Hwr. reflexivity.
    + exact Hbody.
    + by apply stored_prefix.
    + intros [j Hj]. rewrite Hbody. f_equal. by apply (stored_whole B j).
    + exact Hhdr.
    + intros Hne. apply write_all_response_sent; [|done].
      destruct data as [|b data]; [done|]. by cbn [length padded_chunks].
Qed.

Lemma Download_resolves_last_element_witness :
  Download 3 pngStore.1 pngStore.2 newResponse (queryRequest "_file_" ["../1.png"])
  = Done (http_Error newResponse "cannot open: 1.png" StatusBadRequest,
          queryRequest "_file_" ["../1.png"])
  ∧ ∃ w',
      Download 3 pngStore.1 (<["tmp/1.png" := File [Byte.x41]]> pngStore.2)
        newResponse (queryRequest "_file_" ["../1.png"])
      = Done (w', queryRequest "_file_" ["../1.png"])
      ∧ rw_body w' = stored 256 [Byte.x41].
Proof.
  split.
  - destruct (Download_resolves_last_element 3 pngStore.1 pngStore.2 newResponse
                (queryRequest "_file_" ["../1.png"]) "../1.png" [])
      as (_ & _ & _ & [_ Habs] & _);
      [reflexivity|reflexivity|unfold has_name; cbn; by left
      |discriminate|discriminate|].
    apply Habs. reflexivity.
  - destruct (Download_resolves_last_element 3 pngStore.1
                (<["tmp/1.png" := File [Byte.x41]]> pngStore.2) newResponse
                (queryRequest "_file_" ["../1.png"]) "../1.png" [])
      as (_ & _ & _ & _ & Hserve);
      [reflexivity|reflexivity|unfold has_name; cbn; by left
      |discriminate|discriminate|].
    destruct (Hserve [Byte.x41] 256%nat) as (w' & Hd & Hb & _);
      [reflexivity|reflexivity|lia|cbn [length]; lia|].
    exists w'. split; [exact Hd|exact Hb].
Defined.

End DownloadByKey.

Section PaddedTheorems.
Import Path.

(** A successful upload, for any payload: with a transfer buffer of
    [B > 0] bytes, an allowed extension, an existing directory whose name
    is in clean form (no separator at its end, no [.] or [..] elements)
    and a free name, [Upload] creates exactly the file [tmpDir/base], files the
    content type of the part in the cache under that path, and answers with
    [base].  The file holds the payload followed by filler up to the next
    multiple of [B]: the payload is its front, its length is a multiple of
    [B], and it is less than [B] bytes longer than the payload. *)
Theorem Upload_stores_padded (n : NimbusHTTPFormImpl) (fs : FS) (w : ResponseWriter)
    (r : Request sectionReader) (hdr : FileHeader) (payload : list byte)
    (rnd : string) (rnds : list string) (B fuel : nat) :
  tBuffSize n = Z.of_nat B → (0 < B)%nat → (length payload < fuel)%nat →
  ParseMultipartForm r = None →
  FormFile r (dfk n) = Some ({| s_data := payload; s_off := 0 |}, hdr) →
  isExtAllowed n (Ext (Filename hdr)) = None →
  clean_dir (tmpDir n) = true →
  tmpDir n ≠ EmptyString → fs !! tmpDir n = Some Dir →
  rnd ≠ EmptyString → slash_free rnd →
  let base := (prefixAndSuffix ("*" +:+ Ext (Filename hdr))).1 +:+ rnd
              +:+ (prefixAndSuffix ("*" +:+ Ext (Filename hdr))).2 in
  let path := tmpDir n +:+ "/" +:+ base in
  fs !! path = None →
  Upload fuel n fs w r (rnd, rnds)
  = Done (set_mimeCache n
            (<[path := default [] (MIMEHeader hdr !! "Content-Type")]> (mimeCache n)),
          <[path := File (stored B payload)]> fs,
          snd (io_Write w (list_byte_of_string base)))
  ∧ take (length payload) (stored B payload) = payload
  ∧ (∃ j : nat, length (stored B payload) = (j * B)%nat)
  ∧ (length payload ≤ length (stored B payload))%nat
  ∧ (length (stored B payload) < length payload + B)%nat.
Proof.
  intros HB HB0 Hfuel Hparse Hform Hext _ Hdir Hfs Hrnd Hsf base path Hfresh.
  split; [|split; [by apply stored_prefix|by apply stored_length]].
  assert (Hpat : slash_free ("*" +:+ Ext (Filename hdr))).
  { apply slash_free_app; [by repeat constructor|apply Ext_slash_free]. }
  destruct (prefixAndSuffix_slash_free _ Hpat) as [Hpre Hsuf].
  assert (Hkey : Base path = base).
  { apply Base_join.
    - unfold base. by apply append_nonempty, append_nonempty_l.
    - unfold base. by repeat apply slash_free_app. }
  unfold Upload. rewrite Hparse.
  rewrite (downloadFromRequest_stores n fs r hdr payload rnd rnds B fuel) by done.
  cbn [mbind run_bind name contentType]. fold base. fold path. by rewrite Hkey.
Qed.

Lemma Upload_stores_padded_witness :
  Upload 3 pngStore.1 pngStore.2 newResponse photoRequest ("123", [])
  = Done (set_mimeCache pngStore.1 {[ "tmp/123.png" := ["image/png"] ]},
          <["tmp/123.png" := File (stored 256 [Byte.xff; Byte.xd8])]> pngStore.2,
          snd (io_Write newResponse (list_byte_of_string "123.png"))).
Proof.
  destruct (Upload_stores_padded pngStore.1 pngStore.2 newResponse photoRequest
              {| Filename := "photo.png";
                 MIMEHeader := {[ "Content-Type" := ["image/png"] ]} |}
              [Byte.xff; Byte.xd8] "123" [] 256 3) as [Hu _];
    try reflexivity; try done; try (cbn [length]; lia).
  unfold slash_free. cbn. by repeat constructor.
Defined.

(** The download of a stored regular file, for any content: with a
    transfer buffer of [B > 0] bytes, [Download] answers with the bytes of
    the file followed by filler up to the next multiple of [B], appended to
    the body; it leaves the header map of the response alone, sends status
    200 when the file is not empty, and adds the content types the cache
    holds under the requested key to the header of the request. *)
Theorem Download_streams_file {R : Type} (n : NimbusHTTPFormImpl) (fs : FS)
    (w : ResponseWriter) (r : Request R) (key : string) (rest : list string)
    (data : list byte) (B fuel : nat) :
  tBuffSize n = Z.of_nat B → (0 < B)%nat → (length data < fuel)%nat →
  URL_Query r (dfk n) = key :: rest →
  fs !! tmpFilePath n key = Some (File data) →
  ∃ w',
    Download fuel n fs w r
    = Done (w', set_req_Header r
                  (fold_left (fun h t => Header_Add h "Content-Type" t)
                             (default [] (mimeCache n !! key)) (req_Header r)))
    ∧ rw_body w' = rw_body w ++ stored B data
    ∧ rw_header w' = rw_header w
    ∧ (data ≠ [] → rw_sent w = None → rw_sent w' = Some (StatusOK, rw_header w))
    ∧ take (length data) (stored B data) = data.
Proof.
  intros HB HB0 Hfuel Hq Hf.
  destruct (write_file_padded fuel B (tmpFilePath n key) data w HB0 Hfuel)
    as [off' Hw].
  eexists. split; [|split; [|split; [|split]]].
  - unfold Download, os_Open. rewrite Hq, Hf, HB, Hw. reflexivity.
  - by destruct (write_all_response w
                   (padded_chunks (length data) (replicate B Byte.x00) data))
      as [-> _].
  - by destruct (write_all_response w
                   (padded_chunks (length data) (replicate B Byte.x00) data))
      as [_ ->].
  - intros Hne Hsent. apply write_all_response_sent; [|done].
    destruct data as [|b data]; [done|]. by cbn [length padded_chunks].
  - by apply stored_prefix.
Qed.

Lemma Download_streams_file_witness :
  ∃ w',
    Download 3 pngStore.1 (<["tmp/1.png" := File [Byte.x41]]> pngStore.2)
      newResponse (queryRequest "_file_" ["1.png"])
    = Done (w', queryRequest "_file_" ["1.png"])
    ∧ rw_body w' = stored 256 [Byte.x41].
Proof.
  destruct (Download_streams_file pngStore.1
              (<["tmp/1.png" := File [Byte.x41]]> pngStore.2)
              newResponse (queryRequest "_file_" ["1.png"]) "1.png" []
              [Byte.x41] 256 3) as (w' & Hd & Hb & _);
    [reflexivity|lia|cbn [length]; lia|reflexivity|reflexivity|].
  exists w'. split; [exact Hd|exact Hb].
Defined.

(** Upload, then download of the returned key, for any payload: the
    download answers with what the upload stored, the payload followed by
    filler up to the next multiple of the buffer size, so with the payload
    itself exactly when its length is a multiple of the buffer size.  The
    content types it looks up are those the cache held under the key
    before the upload: the types of this upload sit under the path. *)
Theorem Upload_then_Download (n : NimbusHTTPFormImpl) (fs : FS) (w wd : ResponseWriter)
    (r rd : Request sectionReader) (hdr : FileHeader) (payload : list byte)
    (rnd : string) (rnds rest : list string) (B fuel : nat) :
  tBuffSize n = Z.of_nat B → (0 < B)%nat → (length payload + B ≤ fuel)%nat →
  ParseMultipartForm r = None →
  FormFile r (dfk n) = Some ({| s_data := payload; s_off := 0 |}, hdr) →
  isExtAllowed n (Ext (Filename hdr)) = None →
  tmpDir n ≠ EmptyString → fs !! tmpDir n = Some Dir →
  rnd ≠ EmptyString → slash_free rnd →
  let base := (prefixAndSuffix ("*" +:+ Ext (Filename hdr))).1 +:+ rnd
              +:+ (prefixAndSuffix ("*" +:+ Ext (Filename hdr))).2 in
  fs !! (tmpDir n +:+ "/" +:+ base) = None →
  URL_Query rd (dfk n) = base :: rest →
  ∃ n' fs' w1 w2,
    Upload fuel n fs w r (rnd, rnds) = Done (n', fs', w1)
    ∧ rw_body w1 = rw_body w ++ list_byte_of_string base
    ∧ Download fuel n' fs' wd rd
      = Done (w2, set_req_Header rd
                    (fold_left (fun h t => Header_Add h "Content-Type" t)
                               (default [] (mimeCache n !! base)) (req_Header rd)))
    ∧ rw_body w2 = rw_body wd ++ stored B payload
    ∧ (stored B payload = payload ↔ ∃ j : nat, length payload = (j * B)%nat).
Proof.
  intros HB HB0 Hfuel Hparse Hform Hext Hdir Hfs Hrnd Hsf base Hfresh Hq.
  set (path := tmpDir n +:+ "/" +:+ base) in *.
  assert (Hpat : slash_free ("*" +:+ Ext (Filename hdr))).
  { apply slash_free_app; [by repeat constructor|apply Ext_slash_free]. }
  destruct (prefixAndSuffix_slash_free _ Hpat) as [Hpre Hsuf].
  assert (Hne : base ≠ EmptyString)
    by (unfold base; by apply append_nonempty, append_nonempty_l).
  assert (Hbsf : slash_free base)
    by (unfold base; by repeat apply slash_free_app).
  assert (Hkey : Base path = base) by (by apply Base_join).
  destruct (stored_length B payload HB0) as ([j Hj] & Hlo & Hhi).
  destruct (write_file_padded fuel B path (stored B payload) wd HB0)
    as [off' Hw]; [lia|].
  eexists _, _, _, _. split; [|split; [|split; [|split]]].
  - unfold Upload. rewrite Hparse.
    rewrite (downloadFromRequest_stores n fs r hdr payload rnd rnds B fuel)
      by (try done; lia).
    cbn [mbind run_bind name contentType]. reflexivity.
  - fold base. fold path. rewrite Hkey.
    unfold io_Write, ResponseWriter_Writer, WriteHeader. cbn.
    by destruct (rw_sent w).
  - fold base. fold path. unfold Download.
    cbn [dfk tmpDir tBuffSize mimeCache set_mimeCache]. rewrite Hq.
    unfold tmpFilePath. cbn [tmpDir set_mimeCache].
    rewrite (Base_name base) by done. fold path.
    unfold os_Open. rewrite lookup_insert_eq, HB, Hw.
    cbn [mbind run_bind].
    rewrite lookup_insert_ne by apply join_differs. reflexivity.
  - destruct (write_all_response wd
                (padded_chunks (length (stored B payload)) (replicate B Byte.x00)
                   (stored B payload))) as [-> _].
    f_equal. change (stored B (stored B payload) = stored B payload).
    by apply (stored_whole B j).
  - split.
    + intros E. exists j. by rewrite <- E at 1.
    + intros [i Hi]. by apply (stored_whole B i).
Qed.

Lemma Upload_then_Download_witness :
  ∃ n' fs' w1 w2,
    Upload 300 pngStore.1 pngStore.2 newResponse photoRequest ("123", [])
    = Done (n', fs', w1)
    ∧ rw_body w1 = list_byte_of_string "123.png"
    ∧ Download 300 n' fs' newResponse (queryRequest "_file_" ["123.png"])
      = Done (w2, queryRequest "_file_" ["123.png"])
    ∧ rw_body w2 = stored 256 [Byte.xff; Byte.xd8].
Proof.
  destruct (Upload_then_Download pngStore.1 pngStore.2 newResponse newResponse
              photoRequest (queryRequest "_file_" ["123.png"])
              {| Filename := "photo.png";
                 MIMEHeader := {[ "Content-Type" := ["image/png"] ]} |}
              [Byte.xff; Byte.xd8] "123" [] [] 256 300)
    as (n' & fs' & w1 & w2 & Hu & Hb1 & Hd & Hb2 & _);
    try reflexivity; try done; try (cbn [length]; lia).
  all: try (unfold slash_free; cbn; by repeat constructor).
  all: by exists n', fs', w1, w2.
Defined.

End PaddedTheorems.

(** ** What an upload leaves alone *)

Section UploadFrame.

Lemma TempFile_try_fresh (fs : FS) (stem suffix rnd : string) (rnds : list string)
    (name : string) (fs1 : FS) :
  TempFile_try fs stem suffix rnd rnds = inr (name, fs1) →
  fs !! name = None ∧ fs1 = <[name := File []]> fs.
Proof.
  revert rnd. induction rnds as [|rnd' rnds IH]; intros rnd; cbn [TempFile_try].
  - destruct (fs !! (stem +:+ rnd +:+ suffix)) eqn:Hf; [done|].
    by intros [= <- <-].
  - destruct (fs !! (stem +:+ rnd +:+ suffix)) eqn:Hf; [apply IH|].
    by intros [= <- <-].
Qed.

(** [TempFile] only ever creates a file that was not there. *)
Lemma TempFile_fresh (fs : FS) (dir pattern : string) (rnd : string * list string)
    (name : string) (fs1 : FS) :
  TempFile fs dir pattern rnd = inr (name, fs1) →
  fs !! name = None ∧ fs1 = <[name := File []]> fs.
Proof.
  unfold TempFile. destruct (prefixAndSuffix pattern) as [p s].
  destruct (fs !! (if String.eqb dir EmptyString then os_TempDir else dir))
    as [[d|]|]; [done| |done].
  apply TempFile_try_fresh.
Qed.

(** A write through an open file touches that file only, and leaves it a
    regular file. *)
Lemma osFileW_write_frame (w : osFileW) (p : list byte) :
  w_name (snd (io_Write w p)) = w_name w
  ∧ (∀ q, q ≠ w_name w → w_fs (snd (io_Write w p)) !! q = w_fs w !! q)
  ∧ ((∃ d, w_fs w !! w_name w = Some (File d)) →
     ∃ d, w_fs (snd (io_Write w p)) !! w_name w = Some (File d)).
Proof.
  unfold io_Write, osFileW_Writer.
  destruct (w_fs w !! w_name w) as [[d|]|] eqn:Hf; cbn [snd w_name w_fs].
  - split; [done|]. split.
    + intros q Hq. by rewrite lookup_insert_ne.
    + intros _. rewrite lookup_insert_eq. eauto.
  - split; [done|]. split; [done|]. by rewrite Hf.
  - split; [done|]. split; [done|]. by rewrite Hf.
Qed.

Lemma write_loop_file_frame {R : Type} `{Reader R} (fuel : nat) :
  ∀ (f : R) (w : osFileW) (buff : list byte) e f' w',
    write_loop fuel f w buff = Done (e, f', w') →
    w_name w' = w_name w
    ∧ (∀ q, q ≠ w_name w → w_fs w' !! q = w_fs w !! q)
    ∧ ((∃ d, w_fs w !! w_name w = Some (File d)) →
       ∃ d, w_fs w' !! w_name w = Some (File d)).
Proof.
  induction fuel as [|fuel IH]; intros f w buff e f' w'; cbn [write_loop]; [done|].
  destruct (io_Read f (length buff)) as [[data err] f1].
  case_decide.
  { intros [= _ _ <-]. done. }
  destruct err as [err|].
  { intros [= _ _ <-]. done. }
  destruct (io_Write w (fill buff data)) as [e1 w1] eqn:Ew.
  intros Hl. apply IH in Hl as (Hn & Ho & Hk).
  destruct (osFileW_write_frame w (fill buff data)) as (Hn1 & Ho1 & Hk1).
  rewrite Ew in Hn1, Ho1, Hk1. cbn [snd] in *.
  rewrite Hn1 in Hn, Ho, Hk. split; [done|]. split.
  - intros q Hq. rewrite Ho by done. by apply Ho1.
  - intros Hd. apply Hk. by apply Hk1.
Qed.

Lemma write_file_frame {R : Type} `{Reader R} (fuel : nat) (f : R) (w : osFileW)
    (buffSize : Z) e f' w' :
  write fuel f w buffSize = Done (e, f', w') →
  w_name w' = w_name w
  ∧ (∀ q, q ≠ w_name w → w_fs w' !! q = w_fs w !! q)
  ∧ ((∃ d, w_fs w !! w_name w = Some (File d)) →
     ∃ d, w_fs w' !! w_name w = Some (File d)).
Proof.
  unfold write. destruct (buffSize <? 0); [done|]. apply write_loop_file_frame.
Qed.

(** What [downloadFromRequest] does to the disk, whatever the reader and
    however the transfer ends: it changes no path that was there, and if
    it reports a file, that file is new and regular. *)
Lemma downloadFromRequest_frame {R : Type} `{Reader R} (fuel : nat)
    (n : NimbusHTTPFormImpl) (fs fs' : FS) (r : Request R) (fileKey : string)
    (rnd : string * list string) (res : error + downloadedFile) :
  downloadFromRequest fuel n fs r fileKey rnd = Done (fs', res) →
  (∀ p, is_Some (fs !! p) → fs' !! p = fs !! p)
  ∧ (∀ d, res = inr d → fs !! name d = None ∧ ∃ data, fs' !! name d = Some (File data)).
Proof.
  unfold downloadFromRequest.
  destruct (FormFile r fileKey) as [[uploaded hdr]|].
  2:{ intros [= <- <-]. done. }
  destruct (isExtAllowed n (Path.Ext (Filename hdr))).
  { intros [= <- <-]. done. }
  destruct (TempFile fs (tmpDir n) ("*" +:+ Path.Ext (Filename hdr)) rnd)
    as [err|[tempFile fs1]] eqn:Ht.
  { intros [= <- <-]. done. }
  apply TempFile_fresh in Ht as [Hfresh ->].
  destruct (write fuel uploaded _ (tBuffSize n)) as [[[e f'] w1]| |] eqn:Ew;
    cbn [mbind run_bind]; [|done|done].
  apply write_file_frame in Ew as (Hn & Ho & Hk). cbn [w_name w_fs] in *.
  assert (Hold : ∀ p, is_Some (fs !! p) → w_fs w1 !! p = fs !! p).
  { intros p [x Hp]. rewrite Ho by congruence.
    apply lookup_insert_ne. congruence. }
  assert (Hnew : ∃ data, w_fs w1 !! tempFile = Some (File data)).
  { apply Hk. rewrite lookup_insert_eq. eauto. }
  destruct e as [e|]; intros [= <- <-]; (split; [done|]).
  - done.
  - intros d [= <-]. done.
Qed.

(** [Upload] never overwrites and never removes: whatever the request, the
    reader and the outcome of the transfer, every path that was on the disk
    before is there unchanged afterwards; the configuration of the store is
    unchanged; and the only cache entry that can differ is the one under
    the path of a file that did not exist before and exists now. *)
Theorem Upload_keeps_existing_files {R : Type} `{Reader R} (fuel : nat)
    (n n' : NimbusHTTPFormImpl) (fs fs' : FS) (w w' : ResponseWriter)
    (r : Request R) (rnd : string * list string) :
  Upload fuel n fs w r rnd = Done (n', fs', w') →
  (∀ p, is_Some (fs !! p) → fs' !! p = fs !! p)
  ∧ (tmpDir n' = tmpDir n ∧ tBuffSize n' = tBuffSize n ∧ dfk n' = dfk n
     ∧ allowedExtensions n' = allowedExtensions n ∧ allowNoExt n' = allowNoExt n)
  ∧ (∀ k, mimeCache n' !! k ≠ mimeCache n !! k →
          fs !! k = None ∧ ∃ data, fs' !! k = Some (File data)).
Proof.
  unfold Upload. destruct (ParseMultipartForm r).
  { intros [= <- <- _]. done. }
  destruct (downloadFromRequest fuel n fs r (dfk n) rnd) as [[fs1 res]| |] eqn:Hd;
    cbn [mbind run_bind]; [|done|done].
  apply downloadFromRequest_frame in Hd as [Hold Hnew].
  destruct res as [err|d]; intros [= <- <- _].
  { done. }
  split; [done|]. split; [done|].
  intros k Hk. cbn [mimeCache set_mimeCache] in Hk.
  destruct (decide (name d = k)) as [<-|Hne].
  - by apply Hnew.
  - by rewrite lookup_insert_ne in Hk.
Qed.

Lemma Upload_keeps_existing_files_witness :
  (<["tmp/123.png" := File (stored 256 [Byte.xff; Byte.xd8])]> pngStore.2) !! "tmp"
  = pngStore.2 !! "tmp".
Proof.
  apply (Upload_keeps_existing_files 3 pngStore.1
           (set_mimeCache pngStore.1 {[ "tmp/123.png" := ["image/png"] ]})
           pngStore.2
           (<["tmp/123.png" := File (stored 256 [Byte.xff; Byte.xd8])]> pngStore.2)
           newResponse (snd (io_Write newResponse (list_byte_of_string "123.png")))
           photoRequest ("123", [])).
  - vm_compute. reflexivity.
  - vm_compute. eauto.
Defined.

(** A transfer that fails: when the extension is allowed and the file was
    created, but the copy ends with an error, [Upload] answers with status
    500 and the message of that error, and leaves the cache alone; the file
    it created stays on the disk, with whatever was written to it. *)
Theorem Upload_failed_transfer_leaves_file {R : Type} `{Reader R} (fuel : nat)
    (n : NimbusHTTPFormImpl) (fs fs1 : FS) (w : ResponseWriter) (r : Request R)
    (rnd : string * list string) (uploaded f' : R) (hdr : FileHeader)
    (tempFile : string) (e : error) (w1 : osFileW) :
  ParseMultipartForm r = None →
  FormFile r (dfk n) = Some (uploaded, hdr) →
  isExtAllowed n (Path.Ext (Filename hdr)) = None →
  TempFile fs (tmpDir n) ("*" +:+ Path.Ext (Filename hdr)) rnd = inr (tempFile, fs1) →
  write fuel uploaded {| w_fs := fs1; w_name := tempFile |} (tBuffSize n)
  = Done (Some e, f', w1) →
  Upload fuel n fs w r rnd
  = Done (n, w_fs w1, http_Error w (Error e) StatusInternalServerError)
  ∧ fs !! tempFile = None
  ∧ (∃ data, w_fs w1 !! tempFile = Some (File data))
  ∧ (∀ p, is_Some (fs !! p) → w_fs w1 !! p = fs !! p).
Proof.
  intros Hparse Hform Hext Ht Hw.
  assert (Hd : downloadFromRequest fuel n fs r (dfk n) rnd = Done (w_fs w1, inl e)).
  { unfold downloadFromRequest. by rewrite Hform, Hext, Ht, Hw. }
  split; [unfold Upload; by rewrite Hparse, Hd|].
  apply TempFile_fresh in Ht as [Hfresh ->].
  apply write_file_frame in Hw as (Hn & Ho & Hk). cbn [w_name w_fs] in *.
  split; [done|]. split.
  - apply Hk. rewrite lookup_insert_eq. eauto.
  - intros p [x Hp]. rewrite Ho by congruence.
    apply lookup_insert_ne. congruence.
Qed.

End UploadFrame.

Section UploadFrameExamples.

Lemma Upload_failed_transfer_leaves_file_witness :
  Upload 3 pngStore.1 pngStore.2 newResponse brokenUpload ("123", [])
  = Done (pngStore.1,
          <["tmp/123.png" := File ([Byte.x41; Byte.x42] ++ replicate 254 Byte.x00)]>
            pngStore.2,
          http_Error newResponse "unexpected EOF" StatusInternalServerError)
  ∧ pngStore.2 !! "tmp/123.png" = None.
Proof.
  destruct (Upload_failed_transfer_leaves_file 3 pngStore.1 pngStore.2
              (<["tmp/123.png" := File []]> pngStore.2) newResponse brokenUpload
              ("123", [])
              {| script := [([Byte.x41; Byte.x42], None);
                            ([], Some (errorString "unexpected EOF"))] |}
              {| script := [] |}
              {| Filename := "photo.png";
                 MIMEHeader := {[ "Content-Type" := ["image/png"] ]} |}
              "tmp/123.png" (errorString "unexpected EOF")
              {| w_fs := <["tmp/123.png" :=
                             File ([Byte.x41; Byte.x42] ++ replicate 254 Byte.x00)]>
                           pngStore.2;
                 w_name := "tmp/123.png" |})
    as (Hu & Hfresh & _);
    [reflexivity|reflexivity|reflexivity|reflexivity|vm_compute; reflexivity|].
  split; [exact Hu|exact Hfresh].
Defined.

End UploadFrameExamples.

(** ** Delete and what follows it *)

Section DeleteFacts.
Import Path.
Context {R : Type}.

Lemma Base_tmpFilePath (n : NimbusHTTPFormImpl) (key : string) :
  has_name key → Base (tmpFilePath n key) = Base key.
Proof.
  intros Hk. unfold tmpFilePath.
  apply Base_join; [apply Base_nonempty|by apply Base_slash_free].
Qed.

(** [Delete] of the key of a stored file, for every key with a name in it
    (as every key that [Upload] hands out has): the file that a download of
    the key would open is removed, nothing else on the disk changes, the
    cache entry under the base name of the key is dropped, the response is
    left untouched, and every later download of the key is answered with
    the cannot-open reply. *)
Theorem Delete_then_Download (n : NimbusHTTPFormImpl) (fs : FS) (w : ResponseWriter)
    (r : Request R) (key : string) (rest : list string) (data : list byte) :
  URL_Query r (dfk n) = key :: rest →
  has_name key →
  fs !! tmpFilePath n key = Some (File data) →
  Delete n fs w r
  = (set_mimeCache n (delete (Base key) (mimeCache n)),
     delete (tmpFilePath n key) fs, w)
  ∧ (∀ p, p ≠ tmpFilePath n key → delete (tmpFilePath n key) fs !! p = fs !! p)
  ∧ (∀ fuel w2,
        Download fuel (set_mimeCache n (delete (Base key) (mimeCache n)))
          (delete (tmpFilePath n key) fs) w2 r
        = Done (http_Error w2 ("cannot open: " +:+ Base key) StatusBadRequest, r)).
Proof.
  intros Hq Hk Hf. split; [|split].
  - unfold Delete, os_Remove. rewrite Hq.
    rewrite (tmpFilePath_idempotent n key Hk), Hf.
    by rewrite (Base_tmpFilePath n key Hk).
  - intros p Hp. by apply lookup_delete_ne.
  - intros fuel w2.
    pose proof (Download_absent fuel
                  (set_mimeCache n (delete (Base key) (mimeCache n)))
                  (delete (tmpFilePath n key) fs) w2 r key rest Hq) as Hd.
    change (tmpFilePath (set_mimeCache n (delete (Base key) (mimeCache n))) key)
      with (tmpFilePath n key) in Hd.
    rewrite (Base_tmpFilePath n key Hk) in Hd. apply Hd.
    apply lookup_delete_eq.
Qed.

(** [Delete] of a key (with a name in it) whose resolved path is not on
    the disk: the reply is status 400 with the message of the failed
    removal, which names the resolved path, and neither the disk nor the
    cache changes.  In an existing backing directory the reason is "no
    such file or directory" for a key whose last element is a file name,
    "invalid argument" for the element [.] and "directory not empty" for
    the element [..]; it is "not a directory" when a regular file has the
    name of the backing directory; when the backing directory is missing
    it is "not a directory" if its path runs through a regular file, and
    "no such file or directory" otherwise. *)
Theorem Delete_missing_file (n : NimbusHTTPFormImpl) (fs : FS) (w : ResponseWriter)
    (r : Request R) (key : string) (rest : list string) :
  URL_Query r (dfk n) = key :: rest →
  has_name key →
  fs !! tmpFilePath n key = None →
  Delete n fs w r
  = (n, fs,
     http_Error w
       ("failed to delete file: remove " +:+ tmpFilePath n key
        +:+ ": " +:+ remove_reason fs (tmpFilePath n key))
       StatusBadRequest)
  ∧ (fs !! tmpDir n = Some Dir → Base key ≠ "."%string → Base key ≠ ".."%string →
     remove_reason fs (tmpFilePath n key) = "no such file or directory"%string)
  ∧ (fs !! tmpDir n = Some Dir → Base key = "."%string →
     remove_reason fs (tmpFilePath n key) = "invalid argument"%string)
  ∧ (fs !! tmpDir n = Some Dir → Base key = ".."%string →
     remove_reason fs (tmpFilePath n key) = "directory not empty"%string)
  ∧ (∀ data, tmpDir n ≠ EmptyString → fs !! tmpDir n = Some (File data) →
     remove_reason fs (tmpFilePath n key) = "not a directory"%string)
  ∧ (tmpDir n ≠ EmptyString → fs !! tmpDir n = None →
     remove_reason fs (tmpFilePath n key)
     = match parent_of fs (tmpDir n) with
       | ParentIsFile => "not a directory"%string
       | _ => "no such file or directory"%string
       end).
Proof.
  intros Hq Hk Hf. split.
  { unfold Delete, os_Remove. rewrite Hq.
    rewrite (tmpFilePath_idempotent n key Hk), Hf. reflexivity. }
  unfold remove_reason.
  rewrite (parent_of_tmpFilePath n fs key Hk), (Base_tmpFilePath n key Hk).
  repeat split.
  - intros -> H1 H2. destruct (String.eqb (tmpDir n) EmptyString);
      (destruct (String.eqb_spec (Base key) ".") as [?|_]; [done|]);
      by destruct (String.eqb_spec (Base key) "..").
  - intros -> ->. by destruct (String.eqb (tmpDir n) EmptyString).
  - intros -> ->. by destruct (String.eqb (tmpDir n) EmptyString).
  - intros data Hne ->. by destruct (String.eqb_spec (tmpDir n) EmptyString).
  - intros Hne ->. destruct (String.eqb_spec (tmpDir n) EmptyString); [done|].
    by destruct (parent_of fs (tmpDir n)).
Qed.

End DeleteFacts.

Section DeleteExamples.

Lemma Delete_then_Download_witness :
  Delete pngStore.1 (<["tmp/1.png" := File [Byte.x41]]> pngStore.2) newResponse
    (queryRequest "_file_" ["1.png"])
  = (pngStore.1, pngStore.2, newResponse).
Proof.
  destruct (Delete_then_Download pngStore.1
              (<["tmp/1.png" := File [Byte.x41]]> pngStore.2) newResponse
              (queryRequest "_file_" ["1.png"]) "1.png" [] [Byte.x41])
    as [Hd _]; [reflexivity| |reflexivity|].
  - unfold Path.has_name. cbn. by left.
  - rewrite Hd. vm_compute. reflexivity.
Defined.

Lemma Delete_missing_file_witness :
  Delete pngStore.1 pngStore.2 newResponse (queryRequest "_file_" ["1.png"])
  = (pngStore.1, pngStore.2,
     http_Error newResponse
       "failed to delete file: remove tmp/1.png: no such file or directory"
       StatusBadRequest)
  ∧ Delete pngStore.1 pngStore.2 newResponse (queryRequest "_file_" ["."])
    = (pngStore.1, pngStore.2,
       http_Error newResponse
         "failed to delete file: remove tmp/.: invalid argument"
         StatusBadRequest).
Proof.
  split.
  - destruct (Delete_missing_file pngStore.1 pngStore.2 newResponse
                (queryRequest "_file_" ["1.png"]) "1.png" []) as [Hd _];
      [reflexivity|unfold Path.has_name; cbn; by left|reflexivity|exact Hd].
  - destruct (Delete_missing_file pngStore.1 pngStore.2 newResponse
                (queryRequest "_file_" ["."]) "." []) as [Hd _];
      [reflexivity|unfold Path.has_name; cbn; by left|reflexivity|exact Hd].
Defined.

End DeleteExamples.

(** ** Cleanup *)

Section CleanupFacts.

Lemma prefix_append (s t : string) : String.prefix s (s +:+ t) = true.
Proof.
  induction s as [|c s IH]; [by destruct t|].
  change (String.prefix (String c s) (String c (s +:+ t)) = true).
  cbn [String.prefix]. by destruct (ascii_dec c c).
Qed.

(** For the empty path and for a path that ends in a dot element
    [os.RemoveAll] removes nothing, and so does [Cleanup]. *)
Lemma Cleanup_of_dot_removes_nothing (n : NimbusHTTPFormImpl) (fs : FS) :
  tmpDir n = EmptyString ∨ endsWithDot (tmpDir n) = true → Cleanup n fs = fs.
Proof.
  intros [Hd|Hd]; unfold Cleanup; rewrite Hd; [done|].
  by rewrite orb_true_r.
Qed.

(** After [Cleanup] of a store whose directory name is in clean form (so
    neither the empty path nor a path that ends in a dot element, where
    nothing is removed, and without [..] elements, which lead out of the
    directory), the directory and everything below it is gone, every other
    path is as it was, and every download, whatever the key, is answered
    with the cannot-open reply. *)
Theorem Cleanup_then_Download {R : Type} (fuel : nat) (n : NimbusHTTPFormImpl)
    (fs : FS) (w : ResponseWriter) (r : Request R) (key : string)
    (rest : list string) :
  URL_Query r (dfk n) = key :: rest →
  clean_dir (tmpDir n) = true →
  tmpDir n ≠ EmptyString →
  endsWithDot (tmpDir n) = false →
  Download fuel n (Cleanup n fs) w r
  = Done (http_Error w ("cannot open: " +:+ Path.Base (tmpFilePath n key))
            StatusBadRequest, r)
  ∧ Cleanup n fs !! tmpDir n = None
  ∧ (∀ p, String.prefix (tmpDir n +:+ "/") p = true → Cleanup n fs !! p = None)
  ∧ (∀ p, p ≠ tmpDir n → String.prefix (tmpDir n +:+ "/") p = false →
          Cleanup n fs !! p = fs !! p).
Proof.
  intros Hq _ Hne Hdot.
  assert (Hc : Cleanup n fs
               = filter (fun kv => ¬ (fst kv = tmpDir n
                                      ∨ String.prefix (tmpDir n +:+ "/") (fst kv) = true))
                        fs).
  { unfold Cleanup. rewrite Hdot.
    by destruct (String.eqb_spec (tmpDir n) EmptyString). }
  rewrite Hc.
  assert (Hin : ∀ p, String.prefix (tmpDir n +:+ "/") p = true →
                     filter (fun kv => ¬ (fst kv = tmpDir n
                                          ∨ String.prefix (tmpDir n +:+ "/") (fst kv) = true))
                            fs !! p = None).
  { intros p Hp. apply map_lookup_filter_None. right.
    intros x _ Hnot. apply Hnot. by right. }
  split; [|split; [|split; [done|]]].
  - apply (Download_absent fuel n _ w r key rest Hq).
    apply Hin. unfold tmpFilePath.
    rewrite <- append_assoc. apply prefix_append.
  - apply map_lookup_filter_None. right.
    intros x _ Hnot. apply Hnot. by left.
  - intros p Hp1 Hp.
    destruct (fs !! p) as [x|] eqn:Hf.
    + apply map_lookup_filter_Some. split; [done|].
      cbn. intros [?|?]; congruence.
    + apply map_lookup_filter_None. by left.
Qed.

Lemma Cleanup_then_Download_witness :
  Download 3 pngStore.1
    (Cleanup pngStore.1 (<["tmp/1.png" := File [Byte.x41]]> pngStore.2))
    newResponse (queryRequest "_file_" ["1.png"])
  = Done (http_Error newResponse "cannot open: 1.png" StatusBadRequest,
          queryRequest "_file_" ["1.png"]).
Proof.
  apply (Cleanup_then_Download 3 pngStore.1
           (<["tmp/1.png" := File [Byte.x41]]> pngStore.2) newResponse
           (queryRequest "_file_" ["1.png"]) "1.png" []);
    [reflexivity|reflexivity|discriminate|reflexivity].
Defined.

End CleanupFacts.

(** ** The archive of stored files *)

Section ArchiverCalls.

(** The reads of [io.Copy] cover the file. *)
Lemma concat_chunks (fuel size : nat) (l : list byte) :
  (0 < size)%nat → (length l ≤ fuel)%nat → concat (chunks fuel size l) = l.
Proof.
  intros Hs. revert l. induction fuel as [|fuel IH]; intros l Hl.
  - destruct l; [done|cbn [length] in Hl; lia].
  - destruct l as [|b l]; [done|]. cbn [chunks concat].
    rewrite IH; [apply take_drop|].
    rewrite length_drop. cbn [length] in *. lia.
Qed.

Lemma copy_chunks_plain (buf : list byte) (cs : list (list byte)) :
  copy_chunks {| pz_buffer := buf; pz_closed := false |} cs
  = (None, {| pz_buffer := buf ++ concat cs; pz_closed := false |}).
Proof.
  revert buf. induction cs as [|c cs IH]; intros buf; cbn [copy_chunks concat].
  - by rewrite app_nil_r.
  - unfold io_Write at 1. unfold plainZip_Writer at 1. cbn [pz_closed pz_buffer].
    rewrite IH. by rewrite <- app_assoc.
Qed.

(** [AddFile] frames the entry with the base name of the file and copies
    all of its bytes behind the frame. *)
Lemma AddFile_plain (buf : list byte) (fs : FS) (filename : string)
    (data : list byte) :
  fs !! filename = Some (File data) →
  AddFile (mkZipper {| pz_buffer := buf; pz_closed := false |}) fs filename
  = (None,
     mkZipper {| pz_buffer :=
                   buf ++ list_byte_of_string ("PK:" +:+ Path.Base filename +:+ ":")
                       ++ data;
                 pz_closed := false |}).
Proof.
  intros Hf. unfold AddFile, os_Open. rewrite Hf.
  cbn [zw zip_Create plainZip_ZipWriter pz_closed pz_buffer].
  unfold io_Copy. cbn [f_node f_off drop].
  change (@io_Write plainZip zip_entry_Writer) with (@io_Write plainZip plainZip_Writer).
  rewrite copy_chunks_plain.
  rewrite concat_chunks by lia. by rewrite <- app_assoc.
Qed.

Lemma addFiles_plain (n : NimbusHTTPFormImpl) (fs : FS) (keys : list string) :
  (∀ k, k ∈ keys → ∃ data, fs !! tmpFilePath n k = Some (File data)) →
  ∀ buf : list byte,
    addFiles n fs (mkZipper {| pz_buffer := buf; pz_closed := false |}) keys
    = (None,
       mkZipper
         {| pz_buffer :=
              buf ++ flat_map
                       (fun k =>
                          list_byte_of_string
                            ("PK:" +:+ Path.Base (tmpFilePath n k) +:+ ":")
                          ++ file_data fs (tmpFilePath n k))
                       keys;
            pz_closed := false |}).
Proof.
  induction keys as [|key keys IH]; intros Hall buf; cbn [addFiles flat_map].
  - by rewrite app_nil_r.
  - destruct (Hall key) as [data Hf]; [by left|].
    rewrite (AddFile_plain buf fs _ data Hf).
    rewrite IH by (intros k Hk; apply Hall; by right).
    unfold file_data at 2. rewrite Hf. by rewrite <- !app_assoc.
Qed.

(** [DownloadMany] when every key names a stored regular file, run on the
    plain stand-in for the zip writer: the reply is the archive, sent with
    the zip content type and the attachment name added to the header map,
    and the archive holds one entry per key, in the order of the list,
    each framed with the base name of the resolved path and holding the
    bytes of that file, all of them and nothing else, followed by the end
    mark of the one [Close]. *)
Theorem DownloadMany_entries_in_order {R : Type} (n : NimbusHTTPFormImpl) (fs : FS)
    (w : ResponseWriter) (r : Request R) (keys : list string) :
  Decode_filenames r = inr keys →
  (∀ k, k ∈ keys → ∃ data, fs !! tmpFilePath n k = Some (File data)) →
  DownloadMany (ZW := plainZip) n fs w r
  = snd (io_Write
           (set_rw_header w
              (Header_Add
                 (Header_Add (rw_header w) "Content-Type" "application/zip")
                 "Content-Disposition"
                 ("attachment; filename=" +:+ dquote +:+ "archive.zip" +:+ dquote)))
           (flat_map
              (fun k =>
                 list_byte_of_string ("PK:" +:+ Path.Base (tmpFilePath n k) +:+ ":")
                 ++ file_data fs (tmpFilePath n k))
              keys
            ++ list_byte_of_string "PK:end"))
  ∧ rw_body (DownloadMany (ZW := plainZip) n fs w r)
    = rw_body w
      ++ flat_map
           (fun k =>
              list_byte_of_string ("PK:" +:+ Path.Base (tmpFilePath n k) +:+ ":")
              ++ file_data fs (tmpFilePath n k))
           keys
      ++ list_byte_of_string "PK:end".
Proof.
  intros Hd Hall.
  assert (Heq : DownloadMany (ZW := plainZip) n fs w r
                = snd (io_Write
                         (set_rw_header w
                            (Header_Add
                               (Header_Add (rw_header w) "Content-Type" "application/zip")
                               "Content-Disposition"
                               ("attachment; filename=" +:+ dquote +:+ "archive.zip"
                                +:+ dquote)))
                         (flat_map
                            (fun k =>
                               list_byte_of_string
                                 ("PK:" +:+ Path.Base (tmpFilePath n k) +:+ ":")
                               ++ file_data fs (tmpFilePath n k))
                            keys
                          ++ list_byte_of_string "PK:end"))).
  { unfold DownloadMany. rewrite Hd.
    change (@NewZipper plainZip _)
      with (mkZipper {| pz_buffer := []; pz_closed := false |}).
    rewrite (addFiles_plain n fs keys Hall []).
    reflexivity. }
  split; [exact Heq|]. rewrite Heq.
  unfold io_Write, ResponseWriter_Writer, WriteHeader, set_rw_header.
  cbn [snd rw_body rw_sent rw_header]. by destruct (rw_sent w).
Qed.

Lemma DownloadMany_entries_in_order_witness :
  rw_body
    (DownloadMany (ZW := plainZip) pngStore.1
       (<["tmp/2.png" := File [Byte.x43]]>
          (<["tmp/1.png" := File [Byte.x41; Byte.x42]]> pngStore.2))
       newResponse (archiveRequest ["2.png"; "sub/1.png"]))
  = list_byte_of_string "PK:2.png:CPK:1.png:ABPK:end".
Proof.
  destruct (DownloadMany_entries_in_order pngStore.1
              (<["tmp/2.png" := File [Byte.x43]]>
                 (<["tmp/1.png" := File [Byte.x41; Byte.x42]]> pngStore.2))
              newResponse (archiveRequest ["2.png"; "sub/1.png"])
              ["2.png"; "sub/1.png"]) as [_ Hb].
  - reflexivity.
  - intros k Hk. apply elem_of_cons in Hk as [->|Hk]; [by eexists|].
    apply list_elem_of_singleton in Hk as ->. by eexists.
  - rewrite Hb. reflexivity.
Defined.

End ArchiverCalls.

(** ** The extension of a key *)

Section KeyExtension.
Import Path.

Lemma split_last_star_app (r r' acc : list ascii) :
  Forall (fun c => is_star c = false) r →
  split_last_star (r ++ "*"%char :: r') acc = Some (r', rev r ++ acc).
Proof.
  intros Hr. revert acc. induction Hr as [|c r Hc _ IH]; intros acc.
  - reflexivity.
  - cbn [app split_last_star rev]. rewrite Hc, IH. by rewrite <- app_assoc.
Qed.

(** For an extension without a star the pattern of [Upload] has an empty
    prefix and the extension as its suffix. *)
Lemma prefixAndSuffix_ext (ext : string) :
  star_free ext → prefixAndSuffix ("*" +:+ ext) = (EmptyString, ext).
Proof.
  intros Hs. unfold prefixAndSuffix.
  change (list_ascii_of_string ("*" +:+ ext))
    with ("*"%char :: list_ascii_of_string ext).
  cbn [rev].
  rewrite split_last_star_app.
  - rewrite rev_involutive, app_nil_r. cbn [rev].
    by rewrite string_of_list_ascii_of_string.
  - apply Forall_forall. intros c Hc. unfold star_free in Hs.
    rewrite Forall_forall in Hs. apply Hs.
    apply list_elem_of_In, in_rev. by apply list_elem_of_In.
Qed.

Lemma ext_scan_plain (a r acc : list ascii) :
  Forall (fun c => is_slash c = false ∧ is_dot c = false) a →
  ext_scan (a ++ r) acc = ext_scan r (rev a ++ acc).
Proof.
  intros Ha. revert acc. induction Ha as [|c a [Hs Hd] _ IH]; intros acc.
  - reflexivity.
  - cbn [app ext_scan rev]. rewrite Hs, Hd, IH. by rewrite <- app_assoc.
Qed.

Lemma ext_scan_shape (r acc : list ascii) :
  Forall (fun c => is_slash c = false ∧ is_dot c = false) acc →
  ext_scan r acc = []
  ∨ ∃ a, ext_scan r acc = "."%char :: a
         ∧ Forall (fun c => is_slash c = false ∧ is_dot c = false) a.
Proof.
  revert acc. induction r as [|c r IH]; intros acc Hacc; cbn [ext_scan]; [by left|].
  destruct (is_slash c) eqn:Hs; [by left|].
  destruct (is_dot c) eqn:Hd.
  - right. exists acc. split; [|done].
    unfold is_dot in Hd. apply Ascii.eqb_eq in Hd. by subst.
  - apply IH. by constructor.
Qed.

Lemma rev_plain (s : string) :
  plain s →
  Forall (fun c => is_slash c = false ∧ is_dot c = false)
         (rev (list_ascii_of_string s)).
Proof.
  unfold plain. rewrite !Forall_forall. intros Hp c Hc. apply Hp.
  apply list_elem_of_In, in_rev. by apply list_elem_of_In.
Qed.

(** A plain name followed by an extension has that extension. *)
Lemma Ext_of_key (rnd p : string) : plain rnd → Ext (rnd +:+ Ext p) = Ext p.
Proof.
  intros Hr. unfold Ext at 1.
  rewrite list_ascii_of_string_app, rev_app_distr.
  destruct (ext_scan_shape (rev (list_ascii_of_string p)) []) as [He|(a & He & Ha)];
    [constructor| |].
  - unfold Ext. rewrite He. cbn [string_of_list_ascii list_ascii_of_string rev app].
    rewrite <- (app_nil_r (rev (list_ascii_of_string rnd))).
    by rewrite ext_scan_plain by by apply rev_plain.
  - unfold Ext. rewrite He. rewrite list_ascii_of_string_of_list_ascii.
    cbn [rev]. rewrite <- app_assoc. cbn [app].
    rewrite ext_scan_plain.
    + cbn [ext_scan]. change (is_slash ".") with false. change (is_dot ".") with true.
      cbn. by rewrite rev_involutive, app_nil_r.
    + rewrite Forall_forall in Ha |- *. intros c Hc. apply Ha.
      apply list_elem_of_In, in_rev. by apply list_elem_of_In.
Qed.

Lemma plain_slash_free (s : string) : plain s → slash_free s.
Proof.
  unfold plain, slash_free. intros Hp.
  eapply Forall_impl; [exact Hp|]. by intros c [? _].
Qed.

(** The key of an upload carries the extension of the uploaded name: when
    that extension has no star in it and the random part of the name is
    plain, a successful [Upload] answers with the random part followed by
    the extension, so the extension of the key is the extension of the
    uploaded file name, and the extension policy judges the key as it
    judged that name. *)
Theorem Upload_key_keeps_extension (n : NimbusHTTPFormImpl) (fs : FS)
    (w : ResponseWriter) (r : Request sectionReader) (hdr : FileHeader)
    (payload : list byte) (rnd : string) (rnds : list string) (B fuel : nat) :
  tBuffSize n = Z.of_nat B → (0 < B)%nat → (length payload < fuel)%nat →
  ParseMultipartForm r = None →
  FormFile r (dfk n) = Some ({| s_data := payload; s_off := 0 |}, hdr) →
  isExtAllowed n (Ext (Filename hdr)) = None →
  tmpDir n ≠ EmptyString → fs !! tmpDir n = Some Dir →
  star_free (Ext (Filename hdr)) →
  rnd ≠ EmptyString → plain rnd →
  fs !! (tmpDir n +:+ "/" +:+ rnd +:+ Ext (Filename hdr)) = None →
  ∃ n' fs',
    Upload fuel n fs w r (rnd, rnds)
    = Done (n', fs', snd (io_Write w (list_byte_of_string (rnd +:+ Ext (Filename hdr)))))
    ∧ is_Some (fs' !! (tmpDir n +:+ "/" +:+ rnd +:+ Ext (Filename hdr)))
    ∧ Ext (rnd +:+ Ext (Filename hdr)) = Ext (Filename hdr)
    ∧ isExtAllowed n' (Ext (rnd +:+ Ext (Filename hdr))) = None.
Proof.
  intros HB HB0 Hfuel Hparse Hform Hext Hdir Hfs Hstar Hrnd Hplain Hfresh.
  pose proof (prefixAndSuffix_ext _ Hstar) as Hps.
  pose proof (downloadFromRequest_stores n fs r hdr payload rnd rnds B fuel
                HB HB0 Hfuel Hform Hext Hdir Hfs) as Hd.
  rewrite Hps in Hd. cbn [fst snd] in Hd.
  assert (Hd' : downloadFromRequest fuel n fs r (dfk n) (rnd, rnds)
                = Done (<[tmpDir n +:+ "/" +:+ rnd +:+ Ext (Filename hdr)
                          := File (stored B payload)]> fs,
                        inr {| name := tmpDir n +:+ "/" +:+ rnd +:+ Ext (Filename hdr);
                               contentType :=
                                 default [] (MIMEHeader hdr !! "Content-Type") |}))
    by exact (Hd Hfresh).
  clear Hd.
  assert (Hkey : Base (tmpDir n +:+ "/" +:+ rnd +:+ Ext (Filename hdr))
                 = rnd +:+ Ext (Filename hdr)).
  { apply Base_join; [by apply append_nonempty_l|].
    apply slash_free_app; [by apply plain_slash_free|apply Ext_slash_free]. }
  eexists _, _. split; [|split; [|split]].
  - unfold Upload. rewrite Hparse, Hd'. cbn [mbind run_bind name contentType].
    by rewrite Hkey.
  - rewrite lookup_insert_eq. eauto.
  - by apply Ext_of_key.
  - rewrite Ext_of_key by done. exact Hext.
Qed.

Lemma Upload_key_keeps_extension_witness :
  ∃ n' fs',
    Upload 3 pngStore.1 pngStore.2 newResponse photoRequest ("123", [])
    = Done (n', fs', snd (io_Write newResponse (list_byte_of_string "123.png")))
    ∧ Ext "123.png" = Ext "photo.png".
Proof.
  destruct (Upload_key_keeps_extension pngStore.1 pngStore.2 newResponse photoRequest
              {| Filename := "photo.png";
                 MIMEHeader := {[ "Content-Type" := ["image/png"] ]} |}
              [Byte.xff; Byte.xd8] "123" [] 256 3)
    as (n' & fs' & Hu & _ & He & _);
    [reflexivity|lia|cbn [length]; lia|reflexivity|reflexivity|reflexivity|done
    |reflexivity| |done| |reflexivity|].
  - unfold star_free. cbn. by repeat constructor.
  - unfold plain. cbn. by repeat constructor.
  - exists n', fs'. split; [exact Hu|exact He].
Defined.

(** With a star in the extension the last star of the pattern is the one
    that is replaced, and the key has another extension. *)
Example star_in_extension :
  prefixAndSuffix ("*" +:+ Ext "a.b*c") = ("*.b", "c")
  ∧ Ext ("*.b" +:+ "123" +:+ "c") ≠ Ext "a.b*c".
Proof. split; [reflexivity|]. vm_compute. discriminate. Qed.

End KeyExtension.

(** ** The earlier variants *)

Section Variants.
Context {R : Type} `{Reader R}.

(** The two variants of [Upload] compared on every request: they leave the
    same store and the same disk, and they panic or keep running
    together.  Their replies are the same, except when the form file is
    missing or the extension is rejected: then the message is the same and
    nothing was changed, but the in-line variant sends status 400 where
    the variant with [downloadFromRequest] sends status 500. *)
Theorem Upload_variants_agree (fuel : nat) (n : NimbusHTTPFormImpl) (fs : FS)
    (w : ResponseWriter) (r : Request R) (rnd : string * list string) :
  match Inline.Upload fuel n fs w r rnd, Upload fuel n fs w r rnd with
  | Done (n1, fs1, w1), Done (n2, fs2, w2) =>
      n1 = n2 ∧ fs1 = fs2
      ∧ (w1 = w2
         ∨ (∃ msg,
               w1 = http_Error w msg StatusBadRequest
               ∧ w2 = http_Error w msg StatusInternalServerError
               ∧ n1 = n ∧ fs1 = fs
               ∧ (FormFile r (dfk n) = None
                  ∨ ∃ uploaded hdr err,
                      FormFile r (dfk n) = Some (uploaded, hdr)
                      ∧ isExtAllowed n (Path.Ext (Filename hdr)) = Some err
                      ∧ msg = Error err)))
  | Panic m1, Panic m2 => m1 = m2
  | OutOfFuel, OutOfFuel => True
  | _, _ => False
  end.
Proof.
  unfold Inline.Upload, Upload, downloadFromRequest.
  destruct (ParseMultipartForm r); [by repeat split; left|].
  destruct (FormFile r (dfk n)) as [[uploaded hdr]|] eqn:Hform; cbn [mbind run_bind].
  2:{ repeat split. right. eexists. repeat split. by left. }
  destruct (isExtAllowed n (Path.Ext (Filename hdr))) as [err|] eqn:Hext;
    cbn [mbind run_bind].
  { repeat split. right. eexists. repeat split. right. by eexists _, _, _. }
  destruct (TempFile fs (tmpDir n) ("*" +:+ Path.Ext (Filename hdr)) rnd)
    as [err|[tempFile fs1]]; cbn [mbind run_bind].
  { by repeat split; left. }
  destruct (write fuel uploaded _ (tBuffSize n)) as [[[e f'] tf]| |];
    cbn [mbind run_bind]; [|done|done].
  destruct e as [e|]; cbn [name contentType]; by repeat split; left.
Qed.

End Variants.

Section FirstVariant.
Import Path.

Lemma ext_scan_last_dot (r acc : list ascii) :
  Forall (fun c => is_slash c = false) r →
  ext_scan r acc
  = match First.last_dot_suffix r acc with
    | Some e => e
    | None => []
    end.
Proof.
  intros Hr. revert acc. induction Hr as [|c r Hc _ IH]; intros acc; [done|].
  cbn [ext_scan First.last_dot_suffix]. rewrite Hc.
  destruct (is_dot c); [done|apply IH].
Qed.

Lemma last_dot_suffix_nonempty (r acc e : list ascii) :
  First.last_dot_suffix r acc = Some e → e ≠ [].
Proof.
  revert acc. induction r as [|c r IH]; intros acc; cbn [First.last_dot_suffix];
    [done|].
  destruct (is_dot c); [by intros [= <-]|apply IH].
Qed.

(** The extension the first variant of [Upload] finds, against
    [filepath.Ext], for a file name without a separator: the same
    extension whenever there is one, and an error exactly when
    [filepath.Ext] is empty; the test of the index against the length of
    the name never fires. *)
Theorem First_fileExt_agrees (filename : string) :
  slash_free filename →
  First.fileExt filename
  = if String.eqb (Ext filename) EmptyString then inl First.errNoDot
    else inr (Ext filename).
Proof.
  intros Hsf. unfold First.fileExt, Ext.
  rewrite ext_scan_last_dot.
  2:{ unfold slash_free in Hsf. rewrite Forall_forall in Hsf |- *.
      intros c Hc. apply Hsf. apply list_elem_of_In, in_rev.
      by apply list_elem_of_In. }
  destruct (First.last_dot_suffix (rev (list_ascii_of_string filename)) [])
    as [e|] eqn:He; [|done].
  apply last_dot_suffix_nonempty in He. by destruct e.
Qed.

Lemma First_fileExt_agrees_witness :
  First.fileExt "photo.png" = inr ".png"
  ∧ First.fileExt "README" = inl First.errNoDot.
Proof.
  split.
  - apply (First_fileExt_agrees "photo.png").
    unfold slash_free. cbn. by repeat constructor.
  - apply (First_fileExt_agrees "README").
    unfold slash_free. cbn. by repeat constructor.
Defined.

(** With a separator behind the last dot the first variant takes the
    separator into the extension, where [filepath.Ext] finds none. *)
Example First_fileExt_separator :
  First.fileExt "a.b/c" = inr ".b/c" ∧ Ext "a.b/c" = EmptyString.
Proof. split; reflexivity. Qed.

End FirstVariant.

(** ** The constructor *)

Section Constructor.
Context {R : Type} `{Reader R}.

(** [NewHTTPFormImpl] drops the error of [os.Mkdir]: for a directory name
    in clean form it always returns a store, with an empty cache, and
    changes no path that exists.  When the name is free and its directory
    part is an existing directory, the directory is created and nothing
    else changes.  When a regular file has the name, or the directory part
    is missing or is a regular file, the disk is left as it is, and every
    upload that gets as far as creating its file is answered with status
    500 and changes nothing. *)
Theorem NewHTTPFormImpl_drops_Mkdir_error (key : string) (size buffSize : Z)
    (dir : string) (exts : list string) (noExt : bool) (fs : FS) :
  clean_dir dir = true →
  let n := fst (NewHTTPFormImpl key size buffSize dir exts noExt fs) in
  let fs' := snd (NewHTTPFormImpl key size buffSize dir exts noExt fs) in
  mimeCache n = ∅
  ∧ (∀ p, is_Some (fs !! p) → fs' !! p = fs !! p)
  ∧ (fs !! dir = None → parent_of fs dir = ParentIsDir →
     fs' !! dir = Some Dir ∧ ∀ p, p ≠ dir → fs' !! p = fs !! p)
  ∧ ((∃ data, fs !! dir = Some (File data))
     ∨ (fs !! dir = None ∧ parent_of fs dir ≠ ParentIsDir) →
     fs' = fs
     ∧ ∀ fuel w (r : Request R) rnd uploaded hdr,
         ParseMultipartForm r = None →
         FormFile r key = Some (uploaded, hdr) →
         isExtAllowed n (Path.Ext (Filename hdr)) = None →
         ∃ msg, Upload fuel n fs' w r rnd
                = Done (n, fs', http_Error w msg StatusInternalServerError)).
Proof.
  intros Hclean n fs'.
  assert (Hdir : dir ≠ EmptyString) by (intros ->; discriminate).
  unfold n, fs', NewHTTPFormImpl, os_Mkdir. cbn [fst snd].
  split; [done|]. split; [|split].
  - intros p [x Hp]. destruct (fs !! dir) eqn:Hd; [done|].
    destruct (parent_of fs dir); [|done|done].
    apply lookup_insert_ne. congruence.
  - intros -> ->. split; [apply lookup_insert_eq|].
    intros p Hp. by apply lookup_insert_ne.
  - intros Hcase.
    assert (Hfs : match fs !! dir with
                  | Some _ => fs
                  | None => match parent_of fs dir with
                            | ParentIsDir => <[dir := Dir]> fs
                            | _ => fs
                            end
                  end = fs).
    { destruct Hcase as [[data ->]|[-> Hpar]]; [done|].
      by destruct (parent_of fs dir). }
    rewrite Hfs. split; [done|].
    intros fuel w r rnd uploaded hdr Hparse Hform Hext.
    unfold Upload, downloadFromRequest. cbn [dfk tmpDir] in *.
    rewrite Hparse, Hform, Hext. unfold TempFile.
    destruct (String.eqb_spec dir EmptyString) as [?|_]; [done|].
    destruct (prefixAndSuffix ("*" +:+ Path.Ext (Filename hdr))) as [p s].
    destruct Hcase as [[data ->]|[-> _]]; cbn [mbind run_bind]; eauto.
Qed.

End Constructor.

Section ConstructorExample.

Lemma NewHTTPFormImpl_drops_Mkdir_error_witness :
  snd (NewHTTPFormImpl "_file_" Mb10 256 "examples/tmp" [".png"] false ∅) = ∅
  ∧ snd (NewHTTPFormImpl "_file_" Mb10 256 "tmp" [".png"] false ∅) !! "tmp" = Some Dir.
Proof.
  split.
  - destruct (NewHTTPFormImpl_drops_Mkdir_error (R := sectionReader)
                "_file_" Mb10 256 "examples/tmp" [".png"] false ∅)
      as (_ & _ & _ & Hfail); [reflexivity|].
    destruct Hfail as [Hfs _]; [|exact Hfs].
    right. split; [reflexivity|]. vm_compute. discriminate.
  - destruct (NewHTTPFormImpl_drops_Mkdir_error (R := sectionReader)
                "_file_" Mb10 256 "tmp" [".png"] false ∅)
      as (_ & _ & Hok & _); [reflexivity|].
    destruct Hok as [Hdir _]; [reflexivity|reflexivity|exact Hdir].
Defined.

End ConstructorExample.
